(** * ClutterBoxLayout: size negotiation and allocation

    A shallow embedding of the layout arithmetic of
    [clutter/clutter-box-layout.c]: the preferred-size queries
    ([get_preferred_width], [get_preferred_height]), the gap distributor
    ([compare_gap], [distribute_natural_allocation]) and the allocation
    pass ([count_expand_children], [clutter_box_layout_allocate]).

    Number model.  The C code mixes [gfloat] sizes and coordinates with
    [gint] bookkeeping.  A [gfloat] is modelled by an exact rational
    ([Q]), so rounding of the floating-point unit is not part of the
    model; a conversion from [gfloat] to [gint] truncates toward zero
    ([gint_of_gfloat]), as the C conversion does.  [gint] and [guint]
    values are integers of [Z] and [N]; the development covers layouts
    whose pixel quantities stay inside the 32-bit range, so that no
    signed operation overflows.  The one place where the code relies on
    unsigned wrap-around in normal operation, the index difference of
    [compare_gap], has its wrap-around written out.

    What lies outside the file.  A child actor is known through what
    the layout asks of it: visibility, preferred sizes and layout meta.
    [g_qsort_with_data] is modelled by a stable insertion sort,
    [g_return_val_if_fail] by an early return that records the critical
    warning, and [g_error] by an error result, since it aborts the
    program.  The result of the allocation pass is the list of
    rectangles it hands to [allocate_box_child]; that function comes
    with the layout object further down, where
    [clutter_actor_allocate_align_fill] and
    [clutter_actor_box_interpolate] are left open.

    Layout of the file: the embedding of the layout arithmetic and the
    vocabulary of its statements, the layout object with its
    properties and signals, then the properties proved. *)

From Stdlib Require Import ZArith List Bool Lia QArith Qround Qminmax Lqa.
From Stdlib Require Import Sorting.Sorted Permutation.
Import ListNotations.

Open Scope Z_scope.

(** ** GLib macros and conversions *)

Module GLib.

(** [#define MAX(a, b) (((a) > (b)) ? (a) : (b))] at type [gint]. *)
Definition MAX (a b : Z) : Z := if a >? b then a else b.

(** [#define MIN(a, b) (((a) < (b)) ? (a) : (b))] at type [gint]. *)
Definition MIN (a b : Z) : Z := if a <? b then a else b.

(** [a > b] and [a < b] on [gfloat]. *)
Definition fgt (a b : Q) : bool := negb (Qle_bool a b).
Definition flt (a b : Q) : bool := negb (Qle_bool b a).

(** [MAX] at type [gfloat]. *)
Definition MAXf (a b : Q) : Q := if fgt a b then a else b.

(** Conversion of a [gfloat] to [gint]: the fractional part is
    discarded (truncation toward zero). *)
Definition gint_of_gfloat (q : Q) : Z := Z.quot (Qnum q) (Zpos (Qden q)).

(** Conversion of a [gint] (or [guint]) to [gfloat]. *)
Definition gfloat_of_gint (z : Z) : Q := inject_Z z.

(** A [guint] holds a value modulo [2^32]; converting it to [gint]
    reads the same 32 bits in two's complement. *)
Definition guint_wrap (z : Z) : Z := z mod 2 ^ 32.
Definition gint_of_guint (u : Z) : Z :=
  if u <? 2 ^ 31 then u else u - 2 ^ 32.

End GLib.
Import GLib.

(** ** Data model *)

Inductive ClutterTextDirection : Type :=
| CLUTTER_TEXT_DIRECTION_DEFAULT
| CLUTTER_TEXT_DIRECTION_LTR
| CLUTTER_TEXT_DIRECTION_RTL.

Inductive ClutterBoxAlignment : Type :=
| CLUTTER_BOX_ALIGNMENT_START
| CLUTTER_BOX_ALIGNMENT_END
| CLUTTER_BOX_ALIGNMENT_CENTER.

(** [ClutterActorBox]: the two corners of a rectangle. *)
Record ClutterActorBox : Type := mkBox {
  x1 : Q;
  y1 : Q;
  x2 : Q;
  y2 : Q
}.

(** [struct _ClutterBoxChild]: the per-child layout properties.  The
    [last_allocation] cache only feeds animated transitions and is left
    out. *)
Record ClutterBoxChild : Type := mkBoxChild {
  x_align : ClutterBoxAlignment;
  y_align : ClutterBoxAlignment;
  x_fill : bool;
  y_fill : bool;
  expand : bool
}.

(** What the layout manager asks of a child actor: its visibility
    ([CLUTTER_ACTOR_IS_VISIBLE]), its preferred width for a given height
    and its preferred height for a given width (each a pair
    [(minimum, natural)]), and the layout meta attached to it. *)
Record ClutterActor : Type := mkActor {
  visible : bool;
  preferred_width : Q -> Q * Q;
  preferred_height : Q -> Q * Q;
  box_child : ClutterBoxChild
}.

(** [struct _ClutterBoxLayoutPrivate], without the animation fields. *)
Record ClutterBoxLayoutPrivate : Type := mkPriv {
  spacing : N;
  is_vertical : bool;
  is_pack_start : bool;
  is_homogeneous : bool
}.

(** The container: its text direction and its children in declaration
    order ([clutter_container_get_children]). *)
Record ClutterContainer : Type := mkContainer {
  text_direction : ClutterTextDirection;
  children : list ClutterActor
}.

(** [struct _ClutterRequestedSize].  The [actor] back pointer is written
    by the allocation pass and never read, so it is not modelled. *)
Record ClutterRequestedSize : Type := mkRequest {
  minimum_size : Q;
  natural_size : Q
}.

(** [is_rtl] as both the queries and the allocation pass compute it. *)
Definition compute_is_rtl (priv : ClutterBoxLayoutPrivate)
                          (container : ClutterContainer) : bool :=
  if negb (is_vertical priv) then
    match text_direction container with
    | CLUTTER_TEXT_DIRECTION_RTL => true
    | _ => false
    end
  else false.

(** ** Preferred size *)

(** The order in which the two queries walk the child list:
    [g_list_last] and [prev] when [is_rtl], the head and [next]
    otherwise. *)
Definition walk_order (is_rtl : bool) (l : list ClutterActor) : list ClutterActor :=
  if is_rtl then rev l else l.

(** State of the measuring loops: [n_children] and the two
    accumulators behind [min_width_p] and [natural_width_p]. *)
Definition measure_state : Type := (Z * Q * Q)%type.

(** One iteration of the loop of [get_preferred_width]. *)
Definition preferred_width_step (priv : ClutterBoxLayoutPrivate) (for_height : Q)
           (st : measure_state) (child : ClutterActor) : measure_state :=
  let '(n_children, min_width, natural_width) := st in
  if negb (visible child) then st
  else
    let '(child_min, child_nat) :=
      preferred_width child (if negb (is_vertical priv) then for_height else (-1)%Q) in
    if is_vertical priv then
      (n_children + 1, MAXf child_min min_width, MAXf child_nat natural_width)
    else
      (n_children + 1, (min_width + child_min)%Q, (natural_width + child_nat)%Q).

(** [get_preferred_width], with both result pointers non-NULL. *)
Definition get_preferred_width (priv : ClutterBoxLayoutPrivate)
           (container : ClutterContainer) (children : list ClutterActor)
           (for_height : Q) : Q * Q :=
  let is_rtl := compute_is_rtl priv container in
  let '(n_children, min_width, natural_width) :=
    fold_left (preferred_width_step priv for_height)
              (walk_order is_rtl children) (0, 0%Q, 0%Q) in
  if negb (is_vertical priv) && (n_children >? 1) then
    ((min_width + gfloat_of_gint (Z.of_N (spacing priv) * (n_children - 1)))%Q,
     (natural_width + gfloat_of_gint (Z.of_N (spacing priv) * (n_children - 1)))%Q)
  else (min_width, natural_width).

(** One iteration of the loop of [get_preferred_height]. *)
Definition preferred_height_step (priv : ClutterBoxLayoutPrivate) (for_width : Q)
           (st : measure_state) (child : ClutterActor) : measure_state :=
  let '(n_children, min_height, natural_height) := st in
  if negb (visible child) then st
  else
    let '(child_min, child_nat) :=
      preferred_height child (if is_vertical priv then for_width else (-1)%Q) in
    if negb (is_vertical priv) then
      (n_children + 1, MAXf child_min min_height, MAXf child_nat natural_height)
    else
      (n_children + 1, (min_height + child_min)%Q, (natural_height + child_nat)%Q).

(** [get_preferred_height], with both result pointers non-NULL. *)
Definition get_preferred_height (priv : ClutterBoxLayoutPrivate)
           (container : ClutterContainer) (children : list ClutterActor)
           (for_width : Q) : Q * Q :=
  let is_rtl := compute_is_rtl priv container in
  let '(n_children, min_height, natural_height) :=
    fold_left (preferred_height_step priv for_width)
              (walk_order is_rtl children) (0, 0%Q, 0%Q) in
  if is_vertical priv && (n_children >? 1) then
    ((min_height + gfloat_of_gint (Z.of_N (spacing priv) * (n_children - 1)))%Q,
     (natural_height + gfloat_of_gint (Z.of_N (spacing priv) * (n_children - 1)))%Q)
  else (min_height, natural_height).

(** [clutter_box_layout_get_preferred_width] and
    [clutter_box_layout_get_preferred_height]: the layout-manager entry
    points fetch the child list of the container. *)
Definition clutter_box_layout_get_preferred_width (priv : ClutterBoxLayoutPrivate)
           (container : ClutterContainer) (for_height : Q) : Q * Q :=
  get_preferred_width priv container (children container) for_height.

Definition clutter_box_layout_get_preferred_height (priv : ClutterBoxLayoutPrivate)
           (container : ClutterContainer) (for_width : Q) : Q * Q :=
  get_preferred_height priv container (children container) for_width.

(** ** The gap distributor *)

Definition request_zero : ClutterRequestedSize := mkRequest 0%Q 0%Q.

(** [sizes[i]] for an index inside the array. *)
Definition sizes_get (sizes : list ClutterRequestedSize) (i : nat) : ClutterRequestedSize :=
  nth i sizes request_zero.

(** [sizes[idx].minimum_size += extra]. *)
Fixpoint add_to_minimum (sizes : list ClutterRequestedSize) (idx : nat) (extra : Z)
  : list ClutterRequestedSize :=
  match sizes, idx with
  | [], _ => []
  | s :: rest, O =>
      mkRequest (minimum_size s + gfloat_of_gint extra)%Q (natural_size s) :: rest
  | s :: rest, S idx' => s :: add_to_minimum rest idx' extra
  end.

(** The gap of a request as the distribution loop reads it:
    [gint gap = sizes[..].natural_size - sizes[..].minimum_size]. *)
Definition request_gap (s : ClutterRequestedSize) : Z :=
  gint_of_gfloat (natural_size s - minimum_size s)%Q.

(** [compare_gap]: the comparison handed to the sort.  [d1] and [d2] are
    the gaps clamped at zero; the tie-break subtracts two [guint]
    indices and returns the difference as a [gint]. *)
Definition compare_gap (sizes : list ClutterRequestedSize) (c1 c2 : nat) : Z :=
  let d1 := gint_of_gfloat
              (MAXf (natural_size (sizes_get sizes c1) - minimum_size (sizes_get sizes c1))%Q 0%Q) in
  let d2 := gint_of_gfloat
              (MAXf (natural_size (sizes_get sizes c2) - minimum_size (sizes_get sizes c2))%Q 0%Q) in
  let delta := d2 - d1 in
  if 0 =? delta then gint_of_guint (guint_wrap (Z.of_nat c2 - Z.of_nat c1))
  else delta.

(** [g_qsort_with_data] belongs to GLib.  It sorts the array so that
    the comparison of an element with any later one is not positive; it
    is modelled by a stable insertion sort.  [compare_gap] never
    answers zero on two different indices, so every correct sort
    returns the same array (lemma [sorted_spreading_unique]). *)
Fixpoint sort_insert (cmp : nat -> nat -> Z) (x : nat) (l : list nat) : list nat :=
  match l with
  | [] => [x]
  | y :: l' => if cmp x y <=? 0 then x :: l else y :: sort_insert cmp x l'
  end.

Definition g_qsort_with_data (cmp : nat -> nat -> Z) (l : list nat) : list nat :=
  fold_right (sort_insert cmp) [] l.

(** What [distribute_natural_allocation] leaves behind: its return
    value, the updated [sizes] array, whether the precondition check
    [g_return_val_if_fail] fired (a critical warning is logged), and,
    as a record of the run, the indices [spreading[i]] in the order in
    which the loop handled them. *)
Record distribution : Type := mkDistribution {
  dist_return : Z;
  dist_sizes : list ClutterRequestedSize;
  dist_visited : list nat;
  dist_critical : bool
}.

(** The distribution loop
    [for (i = n_requested_sizes - 1; extra_space > 0 && i >= 0; --i)];
    the first argument is [i + 1]. *)
Fixpoint distribute_loop (k : nat) (spreading : list nat) (extra_space : Z)
         (sizes : list ClutterRequestedSize) (visited : list nat)
  : Z * list ClutterRequestedSize * list nat :=
  match k with
  | O => (extra_space, sizes, visited)
  | S i =>
      if extra_space >? 0 then
        let glue := (extra_space + Z.of_nat i) ÷ (Z.of_nat i + 1) in
        let gap := request_gap (sizes_get sizes (nth i spreading O)) in
        let extra := MIN glue gap in
        distribute_loop i spreading (extra_space - extra)
                        (add_to_minimum sizes (nth i spreading O) extra)
                        (visited ++ [nth i spreading O])
      else (extra_space, sizes, visited)
  end.

(** [distribute_natural_allocation]. *)
Definition distribute_natural_allocation (extra_space : Z) (n_requested_sizes : nat)
           (sizes : list ClutterRequestedSize) : distribution :=
  if negb (extra_space >=? 0) then mkDistribution 0 sizes [] true
  else
    let spreading := seq 0 n_requested_sizes in
    let spreading := g_qsort_with_data (compare_gap sizes) spreading in
    let '(extra_space, sizes, visited) :=
      distribute_loop n_requested_sizes spreading extra_space sizes [] in
    mkDistribution extra_space sizes visited false.

(** ** The allocation pass *)

(** [count_expand_children]: the number of visible children and the
    number of visible children whose [expand] flag is set. *)
Definition count_expand_children (container : ClutterContainer) : Z * Z :=
  fold_left
    (fun (acc : Z * Z) (child : ClutterActor) =>
       let '(visible_children, expand_children) := acc in
       if visible child then
         (visible_children + 1,
          if expand (box_child child) then expand_children + 1 else expand_children)
       else acc)
    (children container) (0, 0).

(** The two [g_error] calls of the pass.  [g_error] logs and aborts the
    program; the argument is the position of the offending child in the
    child list. *)
Inductive alloc_error : Type :=
| MinimumBelowZero (child : nat)
| NaturalBelowMinimum (child : nat).

(** The loop "Retrieve desired size for visible children": it appends
    one request per visible child to [sizes] (the C index [i] is the
    length of [sizes]), checks it and subtracts its minimum from
    [size].  [pos] is the position of [child] in the child list. *)
Fixpoint request_sizes (priv : ClutterBoxLayoutPrivate) (box : ClutterActorBox)
         (l : list ClutterActor) (pos : nat) (size : Z)
         (sizes : list ClutterRequestedSize)
  : alloc_error + (Z * list ClutterRequestedSize) :=
  match l with
  | [] => inr (size, sizes)
  | child :: rest =>
      if negb (visible child) then request_sizes priv box rest (S pos) size sizes
      else
        let '(minimum, natural) :=
          if is_vertical priv
          then preferred_height child (x2 box - x1 box)%Q
          else preferred_width child (y2 box - y1 box)%Q in
        if flt minimum 0%Q then inl (MinimumBelowZero pos)
        else if flt natural minimum then inl (NaturalBelowMinimum pos)
        else
          request_sizes priv box rest (S pos)
                        (gint_of_gfloat (gfloat_of_gint size - minimum)%Q)
                        (sizes ++ [mkRequest minimum natural])
  end.

(** The second loop of the pass reads [sizes[i]] with [i] the position
    of the child in the whole child list, while the array holds one
    entry per visible child.  A read at or past [nvis_children] leaves
    the array; what it finds there is whatever the stack holds, given
    here by [stray]. *)
Definition sizes_read (sizes : list ClutterRequestedSize)
           (stray : nat -> ClutterRequestedSize) (i : nat) : ClutterRequestedSize :=
  nth i sizes (stray i).

(** The variables the second loop carries from one child to the next. *)
Record alloc_state : Type := mkState {
  st_x : Z;
  st_y : Z;
  st_n_extra_widgets : Z;
  st_child_allocation : ClutterActorBox
}.

(** One call of [allocate_box_child]: the position [i] of the child, the
    [child_size] computed for it and the [child_allocation] box handed
    over. *)
Record allocation : Type := mkAllocation {
  alloc_index : nat;
  alloc_child_size : Z;
  alloc_box : ClutterActorBox
}.

(** "Assign the child's size." *)
Definition assign_child_size (priv : ClutterBoxLayoutPrivate) (extra : Z)
           (s_i : ClutterRequestedSize) (child : ClutterActor)
           (n_extra_widgets : Z) : Z * Z :=
  if is_homogeneous priv then
    if n_extra_widgets >? 0 then (extra + 1, n_extra_widgets - 1)
    else (extra, n_extra_widgets)
  else
    let child_size := gint_of_gfloat (minimum_size s_i) in
    if expand (box_child child) then
      if n_extra_widgets >? 0 then (child_size + extra + 1, n_extra_widgets - 1)
      else (child_size + extra, n_extra_widgets)
    else (child_size, n_extra_widgets).

(** The mirroring of the horizontal span done when [is_rtl]. *)
Definition rtl_mirror (box child_allocation : ClutterActorBox) : ClutterActorBox :=
  let width := (x2 child_allocation - x1 child_allocation)%Q in
  let new_x1 := (x2 box - x1 box - x1 child_allocation
                 - (x2 child_allocation - x1 child_allocation))%Q in
  mkBox new_x1 (y1 child_allocation) (new_x1 + width)%Q (y2 child_allocation).

(** "Assign the child's position." for a vertical layout. *)
Definition assign_position_vertical (priv : ClutterBoxLayoutPrivate)
           (s_i : ClutterRequestedSize) (child : ClutterActor) (child_size : Z)
           (y : Z) (child_allocation : ClutterActorBox) : Z * ClutterActorBox :=
  let ca :=
    if y_fill (box_child child) then
      let new_y1 := gfloat_of_gint y in
      mkBox (x1 child_allocation) new_y1 (x2 child_allocation)
            (new_y1 + MAXf 1%Q (gfloat_of_gint child_size))%Q
    else
      let new_y1 := (gfloat_of_gint y
                     + (gfloat_of_gint child_size - minimum_size s_i) / 2)%Q in
      mkBox (x1 child_allocation) new_y1 (x2 child_allocation)
            (new_y1 + minimum_size s_i)%Q in
  if is_pack_start priv then (y + (child_size + Z.of_N (spacing priv)), ca)
  else
    (y - (child_size + Z.of_N (spacing priv)),
     mkBox (x1 ca) (y1 ca - gfloat_of_gint child_size)%Q
           (x2 ca) (y2 ca - gfloat_of_gint child_size)%Q).

(** "Assign the child's position." for a horizontal layout. *)
Definition assign_position_horizontal (priv : ClutterBoxLayoutPrivate)
           (box : ClutterActorBox) (is_rtl : bool)
           (s_i : ClutterRequestedSize) (child : ClutterActor) (child_size : Z)
           (x : Z) (child_allocation : ClutterActorBox) : Z * ClutterActorBox :=
  let ca :=
    if x_fill (box_child child) then
      let new_x1 := gfloat_of_gint x in
      mkBox new_x1 (y1 child_allocation)
            (new_x1 + gfloat_of_gint (MAX 1 child_size))%Q (y2 child_allocation)
    else
      let new_x1 := (gfloat_of_gint x
                     + (gfloat_of_gint child_size - minimum_size s_i) / 2)%Q in
      mkBox new_x1 (y1 child_allocation)
            (new_x1 + minimum_size s_i)%Q (y2 child_allocation) in
  let '(x, ca) :=
    if is_pack_start priv then (x + (child_size + Z.of_N (spacing priv)), ca)
    else
      (x - (child_size + Z.of_N (spacing priv)),
       mkBox (x1 ca - gfloat_of_gint child_size)%Q (y1 ca)
             (x2 ca - gfloat_of_gint child_size)%Q (y2 ca)) in
  (x, if is_rtl then rtl_mirror box ca else ca).

(** The body of the second loop for the child at position [i]: the new
    loop state and, for a visible child, the call of
    [allocate_box_child]. *)
Definition allocate_step (priv : ClutterBoxLayoutPrivate) (box : ClutterActorBox)
           (is_rtl : bool) (extra : Z) (sizes : list ClutterRequestedSize)
           (stray : nat -> ClutterRequestedSize)
           (i : nat) (child : ClutterActor) (st : alloc_state)
  : alloc_state * option allocation :=
  if negb (visible child) then (st, None)
  else
    let s_i := sizes_read sizes stray i in
    let '(child_size, n_extra_widgets) :=
      assign_child_size priv extra s_i child (st_n_extra_widgets st) in
    if is_vertical priv then
      let '(y, ca) :=
        assign_position_vertical priv s_i child child_size (st_y st)
                                 (st_child_allocation st) in
      (mkState (st_x st) y n_extra_widgets ca,
       Some (mkAllocation i child_size ca))
    else
      let '(x, ca) :=
        assign_position_horizontal priv box is_rtl s_i child child_size (st_x st)
                                   (st_child_allocation st) in
      (mkState x (st_y st) n_extra_widgets ca,
       Some (mkAllocation i child_size ca)).

(** The second loop,
    [for (i = g_list_length (children) - 1, children = g_list_last (children);
          children; children = children->prev, i--)].
    The argument is the part of the child list still to be visited, in
    visiting order (last child first); the position [i] of its head is
    the number of children before it. *)
Fixpoint allocate_loop (priv : ClutterBoxLayoutPrivate) (box : ClutterActorBox)
         (is_rtl : bool) (extra : Z) (sizes : list ClutterRequestedSize)
         (stray : nat -> ClutterRequestedSize)
         (backwards : list ClutterActor) (st : alloc_state) : list allocation :=
  match backwards with
  | [] => []
  | child :: before =>
      let '(st', call) :=
        allocate_step priv box is_rtl extra sizes stray (length before) child st in
      match call with
      | Some a => a :: allocate_loop priv box is_rtl extra sizes stray before st'
      | None => allocate_loop priv box is_rtl extra sizes stray before st'
      end
  end.

(** The primary extent left once the spacing is taken out, as a [gint]:
    [size = box->y2 - box->y1 - (nvis_children - 1) * priv->spacing]
    (with [x] for [y] in a horizontal layout). *)
Definition available_size (priv : ClutterBoxLayoutPrivate) (box : ClutterActorBox)
           (nvis_children : Z) : Z :=
  if is_vertical priv then
    gint_of_gfloat
      (y2 box - y1 box - gfloat_of_gint ((nvis_children - 1) * Z.of_N (spacing priv)))%Q
  else
    gint_of_gfloat
      (x2 box - x1 box - gfloat_of_gint ((nvis_children - 1) * Z.of_N (spacing priv)))%Q.

(** The loop state before the first child: the cross-axis span of
    [child_allocation] and the cursor.  The primary-axis fields of
    [child_allocation] are not initialised in C; every visible child
    overwrites them before they are used, and they start at zero here. *)
Definition initial_state (priv : ClutterBoxLayoutPrivate) (box : ClutterActorBox)
           (n_extra_widgets : Z) : alloc_state :=
  if is_vertical priv then
    mkState 0
            (if is_pack_start priv then 0 else gint_of_gfloat (y2 box - y1 box)%Q)
            n_extra_widgets
            (mkBox 0%Q 0%Q (MAXf 1%Q (x2 box - x1 box)%Q) 0%Q)
  else
    mkState (if is_pack_start priv then 0 else gint_of_gfloat (0 + x2 box - x1 box)%Q)
            0
            n_extra_widgets
            (mkBox 0%Q 0%Q 0%Q (MAXf 1%Q (y2 box - y1 box)%Q)).

(** The branch on [is_homogeneous] after the requests are in: the
    [extra] each child (or each expanding child) is due, the number
    [n_extra_widgets] of children that get one unit more, and the
    [sizes] array, which the gap distributor has raised in a
    non-homogeneous layout.  [size] is what the request loop left. *)
Definition share_out (priv : ClutterBoxLayoutPrivate) (box : ClutterActorBox)
           (nvis_children nexpand_children : Z) (size : Z)
           (sizes : list ClutterRequestedSize)
  : Z * Z * list ClutterRequestedSize :=
  if is_homogeneous priv then
    let size := available_size priv box nvis_children in
    (size ÷ nvis_children, Z.rem size nvis_children, sizes)
  else
    let d := distribute_natural_allocation
               (MAX 0 size) (Z.to_nat nvis_children) sizes in
    let size := dist_return d in
    if nexpand_children >? 0 then
      (size ÷ nexpand_children, Z.rem size nexpand_children, dist_sizes d)
    else (0, 0, dist_sizes d).

(** [clutter_box_layout_allocate].  The result is either the [g_error]
    that stopped the program or the calls of [allocate_box_child] in the
    order in which they are made. *)
Definition clutter_box_layout_allocate (priv : ClutterBoxLayoutPrivate)
           (container : ClutterContainer) (box : ClutterActorBox)
           (stray : nat -> ClutterRequestedSize)
  : alloc_error + list allocation :=
  let '(nvis_children, nexpand_children) := count_expand_children container in
  if nvis_children <=? 0 then inr []
  else
    let size := available_size priv box nvis_children in
    match request_sizes priv box (children container) 0 size [] with
    | inl err => inl err
    | inr (size, sizes) =>
        let '(extra, n_extra_widgets, sizes) :=
          share_out priv box nvis_children nexpand_children size sizes in
        let is_rtl := compute_is_rtl priv container in
        inr (allocate_loop priv box is_rtl extra sizes stray
                           (rev (children container))
                           (initial_state priv box n_extra_widgets))
    end.

(** * Vocabulary of the statements *)

(** Sum of a list of rationals. *)
Definition Qsum (l : list Q) : Q := fold_right Qplus 0%Q l.

(** [m] is the largest element of [l]. *)
Definition is_maximum (m : Q) (l : list Q) : Prop :=
  Forall (fun x => (x <= m)%Q) l /\ Exists (fun x => x == m) l.

(** The query along the axis in which the children are laid out, and
    the query across it. *)
Definition measure_primary (priv : ClutterBoxLayoutPrivate)
           (container : ClutterContainer) (for_cross_extent : Q) : Q * Q :=
  if is_vertical priv
  then clutter_box_layout_get_preferred_height priv container for_cross_extent
  else clutter_box_layout_get_preferred_width priv container for_cross_extent.

Definition measure_cross (priv : ClutterBoxLayoutPrivate)
           (container : ClutterContainer) (for_primary_extent : Q) : Q * Q :=
  if is_vertical priv
  then clutter_box_layout_get_preferred_width priv container for_primary_extent
  else clutter_box_layout_get_preferred_height priv container for_primary_extent.

(** What a child answers along the primary axis for a given cross
    extent, and across it (the queries pass [-1] there). *)
Definition primary_request (priv : ClutterBoxLayoutPrivate) (for_cross_extent : Q)
           (child : ClutterActor) : Q * Q :=
  if is_vertical priv then preferred_height child for_cross_extent
  else preferred_width child for_cross_extent.

Definition cross_request (priv : ClutterBoxLayoutPrivate) (child : ClutterActor) : Q * Q :=
  if is_vertical priv then preferred_width child (-1)%Q
  else preferred_height child (-1)%Q.

(** The spacing between [n] children: [spacing * (n - 1)] when there is
    more than one child, nothing otherwise. *)
Definition spacing_total (priv : ClutterBoxLayoutPrivate) (n : nat) : Q :=
  if (1 <? n)%nat then inject_Z (Z.of_N (spacing priv) * (Z.of_nat n - 1)) else 0%Q.

(** The same container with the hidden children taken out. *)
Definition without_hidden (container : ClutterContainer) : ClutterContainer :=
  mkContainer (text_direction container) (filter visible (children container)).

(** The invariant of a size request: [0 <= minimum_size <= natural_size]. *)
Definition valid_request (s : ClutterRequestedSize) : Prop :=
  (0 <= minimum_size s)%Q /\ (minimum_size s <= natural_size s)%Q.

(** The order of the pairs (gap, index): [p] comes below [q] when its
    gap is smaller, or the gaps are equal and its index is smaller.  The
    gap is the [gint] the code computes, the integer part of
    [natural_size - minimum_size]. *)
Definition gap_index_lt (sizes : list ClutterRequestedSize) (p q : nat) : Prop :=
  request_gap (sizes_get sizes p) < request_gap (sizes_get sizes q)
  \/ (request_gap (sizes_get sizes p) = request_gap (sizes_get sizes q) /\ (p < q)%nat).

Definition gap_index_gt (sizes : list ClutterRequestedSize) (p q : nat) : Prop :=
  gap_index_lt sizes q p.

(** The index array after the sort, for a call whose
    [n_requested_sizes] is the length of [sizes]. *)
Definition sorted_spreading (sizes : list ClutterRequestedSize) : list nat :=
  g_qsort_with_data (compare_gap sizes) (seq 0 (length sizes)).









(** Two requests with the same sizes, as rationals. *)
Definition request_eq (s t : ClutterRequestedSize) : Prop :=
  minimum_size s == minimum_size t /\ natural_size s == natural_size t.


(** The indices the sort can be trusted on: they hold a request whose
    natural size is not below its minimum, and they are below [2^31],
    where the [guint] difference of [compare_gap] keeps its sign. *)
Definition sortable (sizes : list ClutterRequestedSize) (j : nat) : Prop :=
  (minimum_size (sizes_get sizes j) <= natural_size (sizes_get sizes j))%Q
  /\ Z.of_nat j < 2 ^ 31.







(** The request the allocation pass records for a visible child. *)
Definition child_request (priv : ClutterBoxLayoutPrivate) (box : ClutterActorBox)
           (child : ClutterActor) : ClutterRequestedSize :=
  let '(minimum, natural) :=
    if is_vertical priv
    then preferred_height child (x2 box - x1 box)%Q
    else preferred_width child (y2 box - y1 box)%Q in
  mkRequest minimum natural.

(** The requests of the visible children, in declaration order. *)
Definition visible_requests (priv : ClutterBoxLayoutPrivate) (box : ClutterActorBox)
           (l : list ClutterActor) : list ClutterRequestedSize :=
  map (child_request priv box) (filter visible l).

(** The two checks the pass makes on a request before it goes on. *)
Definition request_accepted (s : ClutterRequestedSize) : bool :=
  negb (flt (minimum_size s) 0%Q) && negb (flt (natural_size s) (minimum_size s)).

(** [size -= sizes[i].minimum_size], once per request: [size] is a
    [gint] and the subtraction is done on [gfloat]. *)
Definition subtract_minimums (size : Z) (requests : list ClutterRequestedSize) : Z :=
  fold_left (fun sz s => gint_of_gfloat (gfloat_of_gint sz - minimum_size s)%Q)
            requests size.





(** The child sizes of a pass, in allocation order; nothing when the
    pass was stopped by [g_error]. *)
Definition child_sizes (result : alloc_error + list allocation) : list Z :=
  match result with
  | inl _ => []
  | inr calls => map alloc_child_size calls
  end.









(** ** Sample layouts *)

(** Two requests with gaps 1 and 10. *)
Definition two_requests : list ClutterRequestedSize :=
  [mkRequest 0%Q 1%Q; mkRequest 0%Q (10 # 1)].

(** A child that asks for the same sizes on both axes whatever the
    opposite extent, with the given visibility, expand flag and fill
    flags. *)
Definition sample_child (is_visible : bool) (minimum natural : Z) (expands fills : bool)
  : ClutterActor :=
  mkActor is_visible
          (fun _ => (inject_Z minimum, inject_Z natural))
          (fun _ => (inject_Z minimum, inject_Z natural))
          (mkBoxChild CLUTTER_BOX_ALIGNMENT_CENTER CLUTTER_BOX_ALIGNMENT_CENTER
                      fills fills expands).

(** Three visible children at their natural sizes 10, 20 and 30, none
    expanding. *)
Definition three_children : list ClutterActor :=
  [sample_child true 10 10 false true;
   sample_child true 20 20 false true;
   sample_child true 30 30 false true].


(** A hidden child followed by two visible ones. *)
Definition hidden_then_two : list ClutterActor :=
  [sample_child false 10 10 false true;
   sample_child true 20 20 false true;
   sample_child true 30 30 false true].

(** A child that reports a natural size below its minimum. *)
Definition inconsistent_child : ClutterActor := sample_child true 20 10 false true.

(** A horizontal layout packing from the start. *)
Definition horizontal_layout (spacing : N) (homogeneous : bool) : ClutterBoxLayoutPrivate :=
  mkPriv spacing false true homogeneous.

Definition ltr_container (l : list ClutterActor) : ClutterContainer :=
  mkContainer CLUTTER_TEXT_DIRECTION_LTR l.

(** A box of the given width and of height 50. *)
Definition box_of_width (w : Z) : ClutterActorBox :=
  mkBox 0%Q 0%Q (inject_Z w) (50 # 1).

(** Nothing of interest past the end of the [sizes] array. *)
Definition no_stray (i : nat) : ClutterRequestedSize := request_zero.

(** Two requests with gaps of one pixel and a half and of one pixel and
    a fifth. *)
Definition fractional_requests : list ClutterRequestedSize :=
  [mkRequest 0%Q (3 # 2); mkRequest 0%Q (6 # 5)].

(** An expanding child that asks for half a pixel. *)
Definition half_pixel_child : ClutterActor :=
  mkActor true
          (fun _ => (1 # 2, 1 # 2)%Q)
          (fun _ => (1 # 2, 1 # 2)%Q)
          (mkBoxChild CLUTTER_BOX_ALIGNMENT_CENTER CLUTTER_BOX_ALIGNMENT_CENTER
                      true true true).

(** Validity of a list of concrete requests. *)
Ltac requests_valid :=
  repeat constructor; unfold Qle; cbn; lia.

(** ** Vocabulary of the further properties *)

(** The positions of the visible children in the child list, in
    declaration order, counted from [pos]. *)
Fixpoint visible_positions_from (pos : nat) (l : list ClutterActor) : list nat :=
  match l with
  | [] => []
  | child :: rest =>
      if visible child then pos :: visible_positions_from (S pos) rest
      else visible_positions_from (S pos) rest
  end.

Definition visible_positions (l : list ClutterActor) : list nat :=
  visible_positions_from 0 l.








Definition transpose_child (c : ClutterActor) : ClutterActor :=
  mkActor (visible c) (preferred_height c) (preferred_width c)
          (mkBoxChild (y_align (box_child c)) (x_align (box_child c))
                      (y_fill (box_child c)) (x_fill (box_child c))
                      (expand (box_child c))).

Definition transpose_layout (priv : ClutterBoxLayoutPrivate) : ClutterBoxLayoutPrivate :=
  mkPriv (spacing priv) (negb (is_vertical priv)) (is_pack_start priv)
         (is_homogeneous priv).

Definition transpose_container (container : ClutterContainer) : ClutterContainer :=
  mkContainer (text_direction container) (map transpose_child (children container)).



(** * The layout object: properties, signals and animation

    The rest of [clutter-box-layout.c]: the setters and getters of the
    layout properties, the per-child properties, the animation switch
    and [allocate_box_child].

    The layout object is the private struct as modelled above together
    with the fields left out there.  A [gboolean] is a [gint]; the flags
    of the two structs are [guint] bit-fields of width 1, so that
    storing a [gboolean] in one keeps its lowest bit.  What a function
    sends out of the file -- a relayout request, a call of the parent
    class, a property notification, a warning -- is recorded in order
    as a list of [signal]s.  [g_object_notify] is given the property by
    name; the model names it by the property id under which
    [class_init] installs that name.  [g_return_if_fail] on the type of
    the object always passes on a typed value and is left out. *)

Definition gboolean : Type := Z.

(** Reading a one-bit field. *)
Definition gboolean_of_bit (b : bool) : gboolean := if b then 1 else 0.

(** Storing an [int] in a [guint] bit-field of width 1. *)
Definition bit_of_gboolean (v : gboolean) : bool := Z.odd v.

(** [v ? TRUE : FALSE] and [!!v]. *)
Definition truth_of_gboolean (v : gboolean) : bool := negb (v =? 0).

Inductive BoxLayoutProperty : Type :=
| PROP_VERTICAL
| PROP_HOMOGENEOUS
| PROP_SPACING
| PROP_PACK_START
| PROP_USE_ANIMATIONS
| PROP_EASING_MODE
| PROP_EASING_DURATION.

Inductive BoxChildProperty : Type :=
| PROP_CHILD_X_ALIGN
| PROP_CHILD_Y_ALIGN
| PROP_CHILD_X_FILL
| PROP_CHILD_Y_FILL
| PROP_CHILD_EXPAND.

Inductive ClutterRequestMode : Type :=
| CLUTTER_REQUEST_HEIGHT_FOR_WIDTH
| CLUTTER_REQUEST_WIDTH_FOR_HEIGHT.

Inductive signal : Type :=
| layout_changed
| parent_begin_animation (duration : N) (easing : N)
| parent_end_animation
| parent_set_container
| set_request_mode (mode : ClutterRequestMode)
| notify (property : BoxLayoutProperty)
| child_notify (property : BoxChildProperty)
| warning_no_container
| warning_no_meta.

(** [ClutterBoxLayout]: the private struct with its remaining fields.
    [layout_container] tells whether [priv->container] is set, and to
    which container. *)
Record ClutterBoxLayout : Type := mkLayout {
  layout_priv : ClutterBoxLayoutPrivate;
  layout_container : option nat;
  easing_mode : N;
  easing_duration : N;
  is_animating : bool;
  use_animations : bool
}.

Definition with_priv (layout : ClutterBoxLayout) (priv : ClutterBoxLayoutPrivate)
  : ClutterBoxLayout :=
  mkLayout priv (layout_container layout) (easing_mode layout)
           (easing_duration layout) (is_animating layout) (use_animations layout).

(** [clutter_box_layout_set_container]. *)
Definition clutter_box_layout_set_container (layout : ClutterBoxLayout)
           (container : option nat) : ClutterBoxLayout * list signal :=
  let layout :=
    mkLayout (layout_priv layout) container (easing_mode layout)
             (easing_duration layout) (is_animating layout) (use_animations layout) in
  match container with
  | Some _ =>
      let request_mode :=
        if is_vertical (layout_priv layout)
        then CLUTTER_REQUEST_HEIGHT_FOR_WIDTH
        else CLUTTER_REQUEST_WIDTH_FOR_HEIGHT in
      (layout, [set_request_mode request_mode; parent_set_container])
  | None => (layout, [parent_set_container])
  end.

(** [clutter_box_layout_begin_animation] and
    [clutter_box_layout_end_animation]. *)
Definition clutter_box_layout_begin_animation (layout : ClutterBoxLayout)
           (duration easing : N) : ClutterBoxLayout * list signal :=
  (mkLayout (layout_priv layout) (layout_container layout) (easing_mode layout)
            (easing_duration layout) true (use_animations layout),
   [parent_begin_animation duration easing]).

Definition clutter_box_layout_end_animation (layout : ClutterBoxLayout)
  : ClutterBoxLayout * list signal :=
  (mkLayout (layout_priv layout) (layout_container layout) (easing_mode layout)
            (easing_duration layout) false (use_animations layout),
   [parent_end_animation]).

(** The block every setter of a geometry property runs after a change:
    with animations it calls [clutter_layout_manager_begin_animation],
    which goes to the [begin_animation] of the class, set by
    [clutter_box_layout_class_init] to the function above; without, it
    calls [clutter_layout_manager_layout_changed]. *)
Definition request_relayout (layout : ClutterBoxLayout)
  : ClutterBoxLayout * list signal :=
  if use_animations layout then
    clutter_box_layout_begin_animation layout (easing_duration layout)
                                       (easing_mode layout)
  else (layout, [layout_changed]).

(** ** The layout properties *)

Definition clutter_box_layout_set_spacing (layout : ClutterBoxLayout) (spacing' : N)
  : ClutterBoxLayout * list signal :=
  let priv := layout_priv layout in
  if negb (spacing priv =? spacing')%N then
    let layout :=
      with_priv layout (mkPriv spacing' (is_vertical priv) (is_pack_start priv)
                               (is_homogeneous priv)) in
    let '(layout, signals) := request_relayout layout in
    (layout, signals ++ [notify PROP_SPACING])
  else (layout, []).

Definition clutter_box_layout_get_spacing (layout : ClutterBoxLayout) : N :=
  spacing (layout_priv layout).

Definition clutter_box_layout_set_vertical (layout : ClutterBoxLayout)
           (vertical : gboolean) : ClutterBoxLayout * list signal :=
  let priv := layout_priv layout in
  if negb (gboolean_of_bit (is_vertical priv) =? vertical) then
    let layout :=
      with_priv layout (mkPriv (spacing priv) (truth_of_gboolean vertical)
                               (is_pack_start priv) (is_homogeneous priv)) in
    let '(layout, signals) := request_relayout layout in
    (layout, signals ++ [notify PROP_VERTICAL])
  else (layout, []).

Definition clutter_box_layout_get_vertical (layout : ClutterBoxLayout) : gboolean :=
  gboolean_of_bit (is_vertical (layout_priv layout)).

Definition clutter_box_layout_set_homogeneous (layout : ClutterBoxLayout)
           (homogeneous : gboolean) : ClutterBoxLayout * list signal :=
  let priv := layout_priv layout in
  if negb (gboolean_of_bit (is_homogeneous priv) =? homogeneous) then
    let layout :=
      with_priv layout (mkPriv (spacing priv) (is_vertical priv) (is_pack_start priv)
                               (truth_of_gboolean homogeneous)) in
    let '(layout, signals) := request_relayout layout in
    (layout, signals ++ [notify PROP_HOMOGENEOUS])
  else (layout, []).

Definition clutter_box_layout_get_homogeneous (layout : ClutterBoxLayout) : gboolean :=
  gboolean_of_bit (is_homogeneous (layout_priv layout)).

Definition clutter_box_layout_set_pack_start (layout : ClutterBoxLayout)
           (pack_start : gboolean) : ClutterBoxLayout * list signal :=
  let priv := layout_priv layout in
  if negb (gboolean_of_bit (is_pack_start priv) =? pack_start) then
    let layout :=
      with_priv layout (mkPriv (spacing priv) (is_vertical priv)
                               (truth_of_gboolean pack_start) (is_homogeneous priv)) in
    let '(layout, signals) := request_relayout layout in
    (layout, signals ++ [notify PROP_PACK_START])
  else (layout, []).

Definition clutter_box_layout_get_pack_start (layout : ClutterBoxLayout) : gboolean :=
  gboolean_of_bit (is_pack_start (layout_priv layout)).

Definition clutter_box_layout_set_use_animations (layout : ClutterBoxLayout)
           (animate : gboolean) : ClutterBoxLayout * list signal :=
  if negb (gboolean_of_bit (use_animations layout) =? animate) then
    (mkLayout (layout_priv layout) (layout_container layout) (easing_mode layout)
              (easing_duration layout) (is_animating layout)
              (bit_of_gboolean animate),
     [notify PROP_USE_ANIMATIONS])
  else (layout, []).

Definition clutter_box_layout_get_use_animations (layout : ClutterBoxLayout)
  : gboolean := gboolean_of_bit (use_animations layout).

Definition clutter_box_layout_set_easing_mode (layout : ClutterBoxLayout) (mode : N)
  : ClutterBoxLayout * list signal :=
  if negb (easing_mode layout =? mode)%N then
    (mkLayout (layout_priv layout) (layout_container layout) mode
              (easing_duration layout) (is_animating layout) (use_animations layout),
     [notify PROP_EASING_MODE])
  else (layout, []).

Definition clutter_box_layout_get_easing_mode (layout : ClutterBoxLayout) : N :=
  easing_mode layout.

Definition clutter_box_layout_set_easing_duration (layout : ClutterBoxLayout)
           (msecs : N) : ClutterBoxLayout * list signal :=
  if negb (easing_duration layout =? msecs)%N then
    (mkLayout (layout_priv layout) (layout_container layout) (easing_mode layout)
              msecs (is_animating layout) (use_animations layout),
     [notify PROP_EASING_DURATION])
  else (layout, []).

Definition clutter_box_layout_get_easing_duration (layout : ClutterBoxLayout) : N :=
  easing_duration layout.

(** ** The properties of a child *)

(** [clutter_box_child_init], without the allocation cache. *)
Definition clutter_box_child_init : ClutterBoxChild :=
  mkBoxChild CLUTTER_BOX_ALIGNMENT_CENTER CLUTTER_BOX_ALIGNMENT_CENTER
             false false false.

Definition alignment_eqb (a b : ClutterBoxAlignment) : bool :=
  match a, b with
  | CLUTTER_BOX_ALIGNMENT_START, CLUTTER_BOX_ALIGNMENT_START
  | CLUTTER_BOX_ALIGNMENT_END, CLUTTER_BOX_ALIGNMENT_END
  | CLUTTER_BOX_ALIGNMENT_CENTER, CLUTTER_BOX_ALIGNMENT_CENTER => true
  | _, _ => false
  end.

(** [box_child_set_align].  The manager of the meta,
    [clutter_layout_meta_get_manager], is the layout given here. *)
Definition box_child_set_align (layout : ClutterBoxLayout) (self : ClutterBoxChild)
           (x_align' y_align' : ClutterBoxAlignment)
  : ClutterBoxLayout * ClutterBoxChild * list signal :=
  let x_changed := negb (alignment_eqb (x_align self) x_align') in
  let y_changed := negb (alignment_eqb (y_align self) y_align') in
  let self :=
    mkBoxChild (if x_changed then x_align' else x_align self)
               (if y_changed then y_align' else y_align self)
               (x_fill self) (y_fill self) (expand self) in
  if x_changed || y_changed then
    let '(layout, signals) := request_relayout layout in
    (layout, self,
     signals ++ (if x_changed then [child_notify PROP_CHILD_X_ALIGN] else [])
             ++ (if y_changed then [child_notify PROP_CHILD_Y_ALIGN] else []))
  else (layout, self, []).

(** [box_child_set_fill]. *)
Definition box_child_set_fill (layout : ClutterBoxLayout) (self : ClutterBoxChild)
           (x_fill' y_fill' : gboolean)
  : ClutterBoxLayout * ClutterBoxChild * list signal :=
  let x_changed := negb (gboolean_of_bit (x_fill self) =? x_fill') in
  let y_changed := negb (gboolean_of_bit (y_fill self) =? y_fill') in
  let self :=
    mkBoxChild (x_align self) (y_align self)
               (if x_changed then bit_of_gboolean x_fill' else x_fill self)
               (if y_changed then bit_of_gboolean y_fill' else y_fill self)
               (expand self) in
  if x_changed || y_changed then
    let '(layout, signals) := request_relayout layout in
    (layout, self,
     signals ++ (if x_changed then [child_notify PROP_CHILD_X_FILL] else [])
             ++ (if y_changed then [child_notify PROP_CHILD_Y_FILL] else []))
  else (layout, self, []).

(** [box_child_set_expand]. *)
Definition box_child_set_expand (layout : ClutterBoxLayout) (self : ClutterBoxChild)
           (expand' : gboolean)
  : ClutterBoxLayout * ClutterBoxChild * list signal :=
  if negb (gboolean_of_bit (expand self) =? expand') then
    let self :=
      mkBoxChild (x_align self) (y_align self) (x_fill self) (y_fill self)
                 (bit_of_gboolean expand') in
    let '(layout, signals) := request_relayout layout in
    (layout, self, signals ++ [child_notify PROP_CHILD_EXPAND])
  else (layout, self, []).

(** The functions of the public interface that set a property of a
    child look the meta up with
    [clutter_layout_manager_get_child_meta]; [meta] is what that
    returns for the actor, [None] for [NULL].  The result carries the
    meta as the call leaves it. *)
Definition clutter_box_layout_set_alignment (layout : ClutterBoxLayout)
           (meta : option ClutterBoxChild) (x_align' y_align' : ClutterBoxAlignment)
  : ClutterBoxLayout * option ClutterBoxChild * list signal :=
  match layout_container layout with
  | None => (layout, meta, [warning_no_container])
  | Some _ =>
      match meta with
      | None => (layout, None, [warning_no_meta])
      | Some self =>
          let '(layout, self, signals) :=
            box_child_set_align layout self x_align' y_align' in
          (layout, Some self, signals)
      end
  end.

Definition clutter_box_layout_set_fill (layout : ClutterBoxLayout)
           (meta : option ClutterBoxChild) (x_fill' y_fill' : gboolean)
  : ClutterBoxLayout * option ClutterBoxChild * list signal :=
  match layout_container layout with
  | None => (layout, meta, [warning_no_container])
  | Some _ =>
      match meta with
      | None => (layout, None, [warning_no_meta])
      | Some self =>
          let '(layout, self, signals) :=
            box_child_set_fill layout self x_fill' y_fill' in
          (layout, Some self, signals)
      end
  end.

Definition clutter_box_layout_set_expand (layout : ClutterBoxLayout)
           (meta : option ClutterBoxChild) (expand' : gboolean)
  : ClutterBoxLayout * option ClutterBoxChild * list signal :=
  match layout_container layout with
  | None => (layout, meta, [warning_no_container])
  | Some _ =>
      match meta with
      | None => (layout, None, [warning_no_meta])
      | Some self =>
          let '(layout, self, signals) := box_child_set_expand layout self expand' in
          (layout, Some self, signals)
      end
  end.

(** The getters: the value, or nothing but a warning. *)
Definition clutter_box_layout_get_alignment (layout : ClutterBoxLayout)
           (meta : option ClutterBoxChild)
  : option (ClutterBoxAlignment * ClutterBoxAlignment) * list signal :=
  match layout_container layout with
  | None => (None, [warning_no_container])
  | Some _ =>
      match meta with
      | None => (None, [warning_no_meta])
      | Some self => (Some (x_align self, y_align self), [])
      end
  end.

Definition clutter_box_layout_get_fill (layout : ClutterBoxLayout)
           (meta : option ClutterBoxChild)
  : option (gboolean * gboolean) * list signal :=
  match layout_container layout with
  | None => (None, [warning_no_container])
  | Some _ =>
      match meta with
      | None => (None, [warning_no_meta])
      | Some self =>
          (Some (gboolean_of_bit (x_fill self), gboolean_of_bit (y_fill self)), [])
      end
  end.

(** [clutter_box_layout_get_expand] returns [FALSE] after a warning. *)
Definition clutter_box_layout_get_expand (layout : ClutterBoxLayout)
           (meta : option ClutterBoxChild) : gboolean * list signal :=
  match layout_container layout with
  | None => (0, [warning_no_container])
  | Some _ =>
      match meta with
      | None => (0, [warning_no_meta])
      | Some self => (gboolean_of_bit (expand self), [])
      end
  end.

(** [clutter_box_layout_pack], from the point where the actor has been
    added to the container: [meta] is the layout meta found for it,
    which the code asserts to be there. *)
Definition clutter_box_layout_pack (layout : ClutterBoxLayout) (meta : ClutterBoxChild)
           (expand' x_fill' y_fill' : gboolean)
           (x_align' y_align' : ClutterBoxAlignment)
  : ClutterBoxLayout * option ClutterBoxChild * list signal :=
  match layout_container layout with
  | None => (layout, None, [warning_no_container])
  | Some _ =>
      let '(layout, self, s1) := box_child_set_align layout meta x_align' y_align' in
      let '(layout, self, s2) := box_child_set_fill layout self x_fill' y_fill' in
      let '(layout, self, s3) := box_child_set_expand layout self expand' in
      (layout, Some self, s1 ++ s2 ++ s3)
  end.

(** ** Allocating one child *)

(** [get_box_alignment_factor]. *)
Definition get_box_alignment_factor (alignment : ClutterBoxAlignment) : Q :=
  match alignment with
  | CLUTTER_BOX_ALIGNMENT_CENTER => 1 # 2
  | CLUTTER_BOX_ALIGNMENT_START => 0
  | CLUTTER_BOX_ALIGNMENT_END => 1
  end.

(** The two fields of [struct _ClutterBoxChild] that feed the animated
    transitions. *)
Record allocation_cache : Type := mkCache {
  last_allocation : ClutterActorBox;
  has_last_allocation : bool
}.

Section AllocateBoxChild.

(** The allocation [clutter_actor_allocate_align_fill] gives the child
    inside a rectangle, read back with
    [clutter_actor_get_allocation_box], and
    [clutter_actor_box_interpolate]: both live in other files and are
    left open. *)
Variable clutter_actor_allocate_align_fill :
  ClutterActor -> ClutterActorBox -> Q -> Q -> bool -> bool -> ClutterActorBox.
Variable clutter_actor_box_interpolate :
  ClutterActorBox -> ClutterActorBox -> Q -> ClutterActorBox.

(** [allocate_box_child]: the cache as the call leaves it and the
    rectangle passed to [clutter_actor_allocate].  [progress] is what
    [clutter_layout_manager_get_animation_progress] returns. *)
Definition allocate_box_child (layout : ClutterBoxLayout) (progress : Q)
           (child : ClutterActor) (cache : allocation_cache)
           (child_box : ClutterActorBox) : allocation_cache * ClutterActorBox :=
  let meta := box_child child in
  let final_child_box :=
    clutter_actor_allocate_align_fill
      child child_box
      (get_box_alignment_factor (x_align meta))
      (get_box_alignment_factor (y_align meta))
      (x_fill meta) (y_fill meta) in
  if use_animations layout && is_animating layout then
    if negb (has_last_allocation cache) then
      (mkCache final_child_box true, final_child_box)
    else
      (cache,
       clutter_actor_box_interpolate (last_allocation cache) final_child_box progress)
  else (mkCache final_child_box true, final_child_box).

(** The calls of [allocate_box_child] of one allocation pass, made in
    order on the caches of the children, which are kept by position in
    the child list. *)
Fixpoint allocate_box_children (layout : ClutterBoxLayout) (progress : Q)
         (children : list ClutterActor) (caches : list allocation_cache)
         (calls : list allocation)
  : list allocation_cache * list (nat * ClutterActorBox) :=
  match calls with
  | [] => (caches, [])
  | a :: rest =>
      match nth_error children (alloc_index a), nth_error caches (alloc_index a) with
      | Some child, Some cache =>
          let '(cache, final_box) :=
            allocate_box_child layout progress child cache (alloc_box a) in
          let '(caches, allocated) :=
            allocate_box_children layout progress children
              (firstn (alloc_index a) caches ++ cache
                 :: skipn (S (alloc_index a)) caches)
              rest in
          (caches, (alloc_index a, final_box) :: allocated)
      | _, _ => allocate_box_children layout progress children caches rest
      end
  end.

End AllocateBoxChild.

(** ** Vocabulary of the properties of the layout object *)

(** A call of one of the seven setters of the layout. *)
Inductive setter_call : Type :=
| call_set_vertical (vertical : gboolean)
| call_set_homogeneous (homogeneous : gboolean)
| call_set_spacing (spacing : N)
| call_set_pack_start (pack_start : gboolean)
| call_set_use_animations (animate : gboolean)
| call_set_easing_mode (mode : N)
| call_set_easing_duration (msecs : N).

Definition run_setter (call : setter_call) (layout : ClutterBoxLayout)
  : ClutterBoxLayout * list signal :=
  match call with
  | call_set_vertical v => clutter_box_layout_set_vertical layout v
  | call_set_homogeneous v => clutter_box_layout_set_homogeneous layout v
  | call_set_spacing n => clutter_box_layout_set_spacing layout n
  | call_set_pack_start v => clutter_box_layout_set_pack_start layout v
  | call_set_use_animations v => clutter_box_layout_set_use_animations layout v
  | call_set_easing_mode m => clutter_box_layout_set_easing_mode layout m
  | call_set_easing_duration d => clutter_box_layout_set_easing_duration layout d
  end.

(** The property a call sets and the value it is given. *)
Definition setter_property (call : setter_call) : BoxLayoutProperty :=
  match call with
  | call_set_vertical _ => PROP_VERTICAL
  | call_set_homogeneous _ => PROP_HOMOGENEOUS
  | call_set_spacing _ => PROP_SPACING
  | call_set_pack_start _ => PROP_PACK_START
  | call_set_use_animations _ => PROP_USE_ANIMATIONS
  | call_set_easing_mode _ => PROP_EASING_MODE
  | call_set_easing_duration _ => PROP_EASING_DURATION
  end.

Definition setter_argument (call : setter_call) : Z :=
  match call with
  | call_set_vertical v | call_set_homogeneous v | call_set_pack_start v
  | call_set_use_animations v => v
  | call_set_spacing n | call_set_easing_mode n | call_set_easing_duration n =>
      Z.of_N n
  end.

(** What the getter of a property returns, as an integer. *)
Definition read_property (property : BoxLayoutProperty) (layout : ClutterBoxLayout)
  : Z :=
  match property with
  | PROP_VERTICAL => clutter_box_layout_get_vertical layout
  | PROP_HOMOGENEOUS => clutter_box_layout_get_homogeneous layout
  | PROP_SPACING => Z.of_N (clutter_box_layout_get_spacing layout)
  | PROP_PACK_START => clutter_box_layout_get_pack_start layout
  | PROP_USE_ANIMATIONS => clutter_box_layout_get_use_animations layout
  | PROP_EASING_MODE => Z.of_N (clutter_box_layout_get_easing_mode layout)
  | PROP_EASING_DURATION => Z.of_N (clutter_box_layout_get_easing_duration layout)
  end.

Definition property_eqb (p q : BoxLayoutProperty) : bool :=
  match p, q with
  | PROP_VERTICAL, PROP_VERTICAL
  | PROP_HOMOGENEOUS, PROP_HOMOGENEOUS
  | PROP_SPACING, PROP_SPACING
  | PROP_PACK_START, PROP_PACK_START
  | PROP_USE_ANIMATIONS, PROP_USE_ANIMATIONS
  | PROP_EASING_MODE, PROP_EASING_MODE
  | PROP_EASING_DURATION, PROP_EASING_DURATION => true
  | _, _ => false
  end.

(** The properties that decide where the children go. *)
Definition geometry_property (property : BoxLayoutProperty) : bool :=
  match property with
  | PROP_VERTICAL | PROP_HOMOGENEOUS | PROP_SPACING | PROP_PACK_START => true
  | _ => false
  end.

(** The request for a new layout a change of geometry sends out. *)
Definition relayout_signal (layout : ClutterBoxLayout) : signal :=
  if use_animations layout
  then parent_begin_animation (easing_duration layout) (easing_mode layout)
  else layout_changed.

Definition is_relayout (s : signal) : bool :=
  match s with
  | layout_changed | parent_begin_animation _ _ => true
  | _ => false
  end.

Definition is_request_mode (s : signal) : bool :=
  match s with
  | set_request_mode _ => true
  | _ => false
  end.

(** The request mode that matches the orientation of a layout. *)
Definition matching_request_mode (layout : ClutterBoxLayout) : ClutterRequestMode :=
  if is_vertical (layout_priv layout)
  then CLUTTER_REQUEST_HEIGHT_FOR_WIDTH
  else CLUTTER_REQUEST_WIDTH_FOR_HEIGHT.

(** A layout in the middle of an animated transition. *)
Definition in_transition (layout : ClutterBoxLayout) : bool :=
  use_animations layout && is_animating layout.

Section AllocationSequences.

Variable clutter_actor_allocate_align_fill :
  ClutterActor -> ClutterActorBox -> Q -> Q -> bool -> bool -> ClutterActorBox.
Variable clutter_actor_box_interpolate :
  ClutterActorBox -> ClutterActorBox -> Q -> ClutterActorBox.

(** The rectangle a child ends up with inside [child_box] when no
    transition is under way. *)
Definition aligned_box (child : ClutterActor) (child_box : ClutterActorBox)
  : ClutterActorBox :=
  clutter_actor_allocate_align_fill
    child child_box
    (get_box_alignment_factor (x_align (box_child child)))
    (get_box_alignment_factor (y_align (box_child child)))
    (x_fill (box_child child)) (y_fill (box_child child)).

(** Successive allocations of one child, each with the progress of the
    animation at that time and the rectangle of that pass: the cache at
    the end and the rectangles the child was given. *)
Fixpoint allocate_box_child_repeatedly (layout : ClutterBoxLayout)
         (child : ClutterActor) (cache : allocation_cache)
         (passes : list (Q * ClutterActorBox))
  : allocation_cache * list ClutterActorBox :=
  match passes with
  | [] => (cache, [])
  | (progress, child_box) :: rest =>
      let '(cache, final_box) :=
        allocate_box_child clutter_actor_allocate_align_fill
                           clutter_actor_box_interpolate
                           layout progress child cache child_box in
      let '(cache, boxes) := allocate_box_child_repeatedly layout child cache rest in
      (cache, final_box :: boxes)
  end.

End AllocationSequences.

(** Sample objects. *)
Definition plain_layout : ClutterBoxLayout :=
  mkLayout (horizontal_layout 5 false) (Some O) 6%N 500%N false false.

Definition animated_layout : ClutterBoxLayout :=
  mkLayout (horizontal_layout 5 false) (Some O) 6%N 500%N true true.

Definition keep_box (child : ClutterActor) (child_box : ClutterActorBox)
           (x_factor y_factor : Q) (x_fill y_fill : bool) : ClutterActorBox :=
  child_box.

Definition linear_interpolation (initial final : ClutterActorBox) (progress : Q) : ClutterActorBox :=
  mkBox (x1 initial + (x1 final - x1 initial) * progress)%Q
        (y1 initial + (y1 final - y1 initial) * progress)%Q
        (x2 initial + (x2 final - x2 initial) * progress)%Q
        (y2 initial + (y2 final - y2 initial) * progress)%Q.

(** What the getter of the property returns after a call of its
    setter: a [gboolean] is reduced to its truth value where the setter
    writes [v ? TRUE : FALSE] or [!!v], and to its lowest bit where it
    stores [v] in the bit-field as it is. *)
Definition stored_value (call : setter_call) : Z :=
  match call with
  | call_set_vertical v | call_set_homogeneous v | call_set_pack_start v =>
      gboolean_of_bit (truth_of_gboolean v)
  | call_set_use_animations v => gboolean_of_bit (bit_of_gboolean v)
  | call_set_spacing n | call_set_easing_mode n | call_set_easing_duration n =>
      Z.of_N n
  end.

(** The seven setters and getters, opened up on a layout given field
    by field. *)
Ltac setter_cases layout :=
  destruct layout as [[sp vert pack homog] cont emode dur anim use];
  unfold run_setter, setter_property, setter_argument, read_property, stored_value,
    clutter_box_layout_set_vertical, clutter_box_layout_set_homogeneous,
    clutter_box_layout_set_spacing, clutter_box_layout_set_pack_start,
    clutter_box_layout_set_use_animations, clutter_box_layout_set_easing_mode,
    clutter_box_layout_set_easing_duration,
    clutter_box_layout_get_vertical, clutter_box_layout_get_homogeneous,
    clutter_box_layout_get_spacing, clutter_box_layout_get_pack_start,
    clutter_box_layout_get_use_animations, clutter_box_layout_get_easing_mode,
    clutter_box_layout_get_easing_duration, geometry_property, with_priv in *;
  cbn [layout_priv layout_container easing_mode easing_duration is_animating
       use_animations spacing is_vertical is_pack_start is_homogeneous] in *.

(** * Properties *)

(** ** Truncation of rationals *)

Lemma gint_of_gfloat_floor (q : Q) : (0 <= q)%Q -> gint_of_gfloat q = Qfloor q.
Proof.
  destruct q as [n d]; unfold Qle, gint_of_gfloat, Qfloor; simpl; intros H.
  apply Z.quot_div_nonneg; lia.
Qed.

Lemma gint_of_gfloat_ceiling (q : Q) : (q <= 0)%Q -> gint_of_gfloat q = Qceiling q.
Proof.
  destruct q as [n d]; unfold Qle, gint_of_gfloat, Qceiling, Qfloor; simpl; intros H.
  replace n with (- - n) at 1 by lia.
  rewrite Z.quot_opp_l by lia.
  f_equal. apply Z.quot_div_nonneg; lia.
Qed.


Lemma gint_of_gfloat_nonneg (q : Q) : (0 <= q)%Q -> 0 <= gint_of_gfloat q.
Proof.
  intros H. rewrite gint_of_gfloat_floor by assumption.
  change (Qfloor 0 <= Qfloor q). now apply Qfloor_resp_le.
Qed.

Lemma gint_of_gfloat_nonpos (q : Q) : (q <= 0)%Q -> gint_of_gfloat q <= 0.
Proof.
  intros H. rewrite gint_of_gfloat_ceiling by assumption.
  change (Qceiling q <= Qceiling 0). now apply Qceiling_resp_le.
Qed.

Lemma gint_of_gfloat_le (p q : Q) : (p <= q)%Q -> gint_of_gfloat p <= gint_of_gfloat q.
Proof.
  intros H.
  destruct (Qlt_le_dec p 0) as [Hp | Hp]; destruct (Qlt_le_dec q 0) as [Hq | Hq].
  - rewrite !gint_of_gfloat_ceiling by lra. now apply Qceiling_resp_le.
  - pose proof (gint_of_gfloat_nonpos p ltac:(lra)).
    pose proof (gint_of_gfloat_nonneg q Hq). lia.
  - lra.
  - rewrite !gint_of_gfloat_floor by lra. now apply Qfloor_resp_le.
Qed.

Lemma gint_of_gfloat_comp (p q : Q) : p == q -> gint_of_gfloat p = gint_of_gfloat q.
Proof.
  intros H. apply Z.le_antisymm; apply gint_of_gfloat_le; rewrite H; apply Qle_refl.
Qed.

#[global] Instance gint_of_gfloat_Proper : Proper (Qeq ==> eq) gint_of_gfloat.
Proof. intros p q H. now apply gint_of_gfloat_comp. Qed.






(** ** Preferred size *)

Lemma Qsum_nil : Qsum [] = 0%Q.
Proof. reflexivity. Qed.

Lemma Qsum_cons (a : Q) (l : list Q) : Qsum (a :: l) = (a + Qsum l)%Q.
Proof. reflexivity. Qed.

Lemma Qsum_app (l1 l2 : list Q) : Qsum (l1 ++ l2) == (Qsum l1 + Qsum l2)%Q.
Proof.
  induction l1 as [|a l1 IH]; cbn [app].
  - rewrite Qsum_nil. lra.
  - rewrite !Qsum_cons, IH. lra.
Qed.

Lemma Qsum_rev (l : list Q) : Qsum (rev l) == Qsum l.
Proof.
  induction l as [|a l IH]; cbn [rev].
  - reflexivity.
  - rewrite Qsum_app, IH, !Qsum_cons, Qsum_nil. lra.
Qed.

Lemma MAXf_cases (a b : Q) :
  (MAXf a b = a /\ (b <= a)%Q) \/ (MAXf a b = b /\ (a <= b)%Q).
Proof.
  unfold MAXf, fgt. destruct (Qle_bool a b) eqn:E; simpl.
  - right. split; [reflexivity|]. now apply Qle_bool_iff.
  - left. split; [reflexivity|].
    destruct (Qlt_le_dec a b) as [H|H]; [|assumption].
    apply Qlt_le_weak, Qle_bool_iff in H. congruence.
Qed.

Lemma is_maximum_step (m a : Q) (l : list Q) :
  is_maximum m l -> is_maximum (MAXf a m) (l ++ [a]).
Proof.
  intros [Hub Hex]. destruct (MAXf_cases a m) as [[E Hle] | [E Hle]]; rewrite E; split.
  - apply Forall_app. split.
    + eapply Forall_impl; [|exact Hub]. simpl. intros x Hx. lra.
    + constructor; [lra | constructor].
  - apply Exists_app. right. constructor. reflexivity.
  - apply Forall_app. split; [assumption|]. constructor; [assumption | constructor].
  - apply Exists_app. now left.
Qed.

Lemma is_maximum_perm (m : Q) (l l' : list Q) :
  Permutation l l' -> is_maximum m l -> is_maximum m l'.
Proof.
  intros P [Hub Hex]. split.
  - eapply Permutation_Forall; eassumption.
  - apply Exists_exists in Hex. destruct Hex as [x [Hin Hx]].
    apply Exists_exists. exists x. split; [|assumption].
    eapply Permutation_in; eassumption.
Qed.


Section Measuring.

Variable priv : ClutterBoxLayoutPrivate.
Variable for_size : Q.

(** Hidden children leave the loop state alone. *)
Lemma width_loop_filter (l : list ClutterActor) (st : measure_state) :
  fold_left (preferred_width_step priv for_size) l st
  = fold_left (preferred_width_step priv for_size) (filter visible l) st.
Proof.
  revert st. induction l as [|c l IH]; intros st; simpl; [reflexivity|].
  destruct (visible c) eqn:V; simpl.
  - apply IH.
  - rewrite <- IH. f_equal. unfold preferred_width_step.
    destruct st as [[n a] b]. now rewrite V.
Qed.

Lemma height_loop_filter (l : list ClutterActor) (st : measure_state) :
  fold_left (preferred_height_step priv for_size) l st
  = fold_left (preferred_height_step priv for_size) (filter visible l) st.
Proof.
  revert st. induction l as [|c l IH]; intros st; simpl; [reflexivity|].
  destruct (visible c) eqn:V; simpl.
  - apply IH.
  - rewrite <- IH. f_equal. unfold preferred_height_step.
    destruct st as [[n a] b]. now rewrite V.
Qed.

(** The summing loops over visible children. *)
Lemma width_loop_sum (l : list ClutterActor) (n : Z) (a b : Q) :
  is_vertical priv = false -> Forall (fun c => visible c = true) l ->
  exists a' b',
    fold_left (preferred_width_step priv for_size) l (n, a, b)
    = (n + Z.of_nat (length l), a', b')
    /\ a' == (a + Qsum (map (fun c => fst (preferred_width c for_size)) l))%Q
    /\ b' == (b + Qsum (map (fun c => snd (preferred_width c for_size)) l))%Q.
Proof.
  intros Hv Hvis. revert n a b.
  induction Hvis as [|c l Hc Hl IH]; intros n a b.
  - exists a, b. cbn [fold_left length map]. rewrite Z.add_0_r, Qsum_nil. repeat split; lra.
  - cbn [fold_left]. unfold preferred_width_step at 2. rewrite Hc, Hv. simpl negb.
    cbv iota. destruct (preferred_width c for_size) as [cm cn] eqn:E.
    destruct (IH (n + 1) (a + cm)%Q (b + cn)%Q) as (a' & b' & Heq & Ha & Hb).
    exists a', b'. rewrite Heq. split; [|split].
    + f_equal. f_equal. simpl length. lia.
    + rewrite Ha. cbn [map]. rewrite Qsum_cons, E. cbn [fst]. lra.
    + rewrite Hb. cbn [map]. rewrite Qsum_cons, E. cbn [snd]. lra.
Qed.

Lemma height_loop_sum (l : list ClutterActor) (n : Z) (a b : Q) :
  is_vertical priv = true -> Forall (fun c => visible c = true) l ->
  exists a' b',
    fold_left (preferred_height_step priv for_size) l (n, a, b)
    = (n + Z.of_nat (length l), a', b')
    /\ a' == (a + Qsum (map (fun c => fst (preferred_height c for_size)) l))%Q
    /\ b' == (b + Qsum (map (fun c => snd (preferred_height c for_size)) l))%Q.
Proof.
  intros Hv Hvis. revert n a b.
  induction Hvis as [|c l Hc Hl IH]; intros n a b.
  - exists a, b. cbn [fold_left length map]. rewrite Z.add_0_r, Qsum_nil. repeat split; lra.
  - cbn [fold_left]. unfold preferred_height_step at 2. rewrite Hc, Hv. simpl negb.
    cbv iota. destruct (preferred_height c for_size) as [cm cn] eqn:E.
    destruct (IH (n + 1) (a + cm)%Q (b + cn)%Q) as (a' & b' & Heq & Ha & Hb).
    exists a', b'. rewrite Heq. split; [|split].
    + f_equal. f_equal. simpl length. lia.
    + rewrite Ha. cbn [map]. rewrite Qsum_cons, E. cbn [fst]. lra.
    + rewrite Hb. cbn [map]. rewrite Qsum_cons, E. cbn [snd]. lra.
Qed.

(** The maximising loops over visible children: the accumulators hold
    the largest value seen so far, the initial value included. *)
Lemma width_loop_max (l : list ClutterActor) (n : Z) (a b : Q) (la lb : list Q) :
  is_vertical priv = true -> Forall (fun c => visible c = true) l ->
  is_maximum a la -> is_maximum b lb ->
  exists a' b',
    fold_left (preferred_width_step priv for_size) l (n, a, b)
    = (n + Z.of_nat (length l), a', b')
    /\ is_maximum a' (la ++ map (fun c => fst (preferred_width c (-1)%Q)) l)
    /\ is_maximum b' (lb ++ map (fun c => snd (preferred_width c (-1)%Q)) l).
Proof.
  intros Hv Hvis. revert n a b la lb.
  induction Hvis as [|c l Hc Hl IH]; intros n a b la lb Ha Hb.
  - exists a, b. cbn [fold_left length map]. rewrite Z.add_0_r, !app_nil_r.
    split; [reflexivity | split; assumption].
  - cbn [fold_left]. unfold preferred_width_step at 2. rewrite Hc, Hv. simpl negb.
    cbv iota. destruct (preferred_width c (-1)%Q) as [cm cn] eqn:E.
    destruct (IH (n + 1) (MAXf cm a) (MAXf cn b) (la ++ [cm]) (lb ++ [cn]))
      as (a' & b' & Heq & Ha' & Hb'); try now apply is_maximum_step.
    exists a', b'. rewrite Heq. split; [|split].
    + f_equal. f_equal. simpl length. lia.
    + simpl map. rewrite E. simpl fst. now rewrite <- app_assoc in Ha'.
    + simpl map. rewrite E. simpl snd. now rewrite <- app_assoc in Hb'.
Qed.

Lemma height_loop_max (l : list ClutterActor) (n : Z) (a b : Q) (la lb : list Q) :
  is_vertical priv = false -> Forall (fun c => visible c = true) l ->
  is_maximum a la -> is_maximum b lb ->
  exists a' b',
    fold_left (preferred_height_step priv for_size) l (n, a, b)
    = (n + Z.of_nat (length l), a', b')
    /\ is_maximum a' (la ++ map (fun c => fst (preferred_height c (-1)%Q)) l)
    /\ is_maximum b' (lb ++ map (fun c => snd (preferred_height c (-1)%Q)) l).
Proof.
  intros Hv Hvis. revert n a b la lb.
  induction Hvis as [|c l Hc Hl IH]; intros n a b la lb Ha Hb.
  - exists a, b. cbn [fold_left length map]. rewrite Z.add_0_r, !app_nil_r.
    split; [reflexivity | split; assumption].
  - cbn [fold_left]. unfold preferred_height_step at 2. rewrite Hc, Hv. simpl negb.
    cbv iota. destruct (preferred_height c (-1)%Q) as [cm cn] eqn:E.
    destruct (IH (n + 1) (MAXf cm a) (MAXf cn b) (la ++ [cm]) (lb ++ [cn]))
      as (a' & b' & Heq & Ha' & Hb'); try now apply is_maximum_step.
    exists a', b'. rewrite Heq. split; [|split].
    + f_equal. f_equal. simpl length. lia.
    + simpl map. rewrite E. simpl fst. now rewrite <- app_assoc in Ha'.
    + simpl map. rewrite E. simpl snd. now rewrite <- app_assoc in Hb'.
Qed.

End Measuring.

Section Queries.

Variable priv : ClutterBoxLayoutPrivate.
Variable container : ClutterContainer.
Variable for_size : Q.

Lemma walk_order_visible (r : bool) (l : list ClutterActor) :
  filter visible (walk_order r l) = walk_order r (filter visible l).
Proof. destruct r; simpl; [apply filter_rev | reflexivity]. Qed.

Lemma walk_order_all_visible (r : bool) (l : list ClutterActor) :
  Forall (fun c => visible c = true) (walk_order r (filter visible l)).
Proof.
  apply Forall_forall. intros c Hc.
  assert (In c (filter visible l)) as H
      by (destruct r; simpl in Hc; [now apply in_rev|assumption]).
  now apply filter_In in H.
Qed.

Lemma walk_order_length (r : bool) (l : list ClutterActor) :
  length (walk_order r l) = length l.
Proof. destruct r; simpl; [apply length_rev | reflexivity]. Qed.

Lemma walk_order_Qsum (r : bool) (f : ClutterActor -> Q) (l : list ClutterActor) :
  Qsum (map f (walk_order r l)) == Qsum (map f l).
Proof. destruct r; simpl; [rewrite map_rev; apply Qsum_rev | reflexivity]. Qed.

Lemma walk_order_maximum (r : bool) (f : ClutterActor -> Q) (l : list ClutterActor) (m : Q) :
  is_maximum m (0%Q :: map f (walk_order r l)) -> is_maximum m (0%Q :: map f l).
Proof.
  apply is_maximum_perm. constructor. apply Permutation_map.
  destruct r; simpl; [symmetry; apply Permutation_rev | reflexivity].
Qed.

Lemma spacing_total_spec (n : nat) :
  spacing_total priv n
  = if Z.of_nat n >? 1 then inject_Z (Z.of_N (spacing priv) * (Z.of_nat n - 1)) else 0%Q.
Proof.
  unfold spacing_total.
  destruct (Nat.ltb_spec 1 n); destruct (Z.gtb_spec (Z.of_nat n) 1); try reflexivity; lia.
Qed.

Lemma width_query_sum (l : list ClutterActor) :
  is_vertical priv = false ->
  let r := get_preferred_width priv container l for_size in
  let vis := filter visible l in
  fst r == (Qsum (map (fun c => fst (preferred_width c for_size)) vis)
            + spacing_total priv (length vis))%Q
  /\ snd r == (Qsum (map (fun c => snd (preferred_width c for_size)) vis)
               + spacing_total priv (length vis))%Q.
Proof.
  intros Hv. cbv zeta. unfold get_preferred_width.
  rewrite width_loop_filter, walk_order_visible.
  destruct (width_loop_sum priv for_size _ 0 0%Q 0%Q Hv
              (walk_order_all_visible (compute_is_rtl priv container) l))
    as (a & b & Heq & Ha & Hb).
  rewrite Heq, walk_order_length, Hv, spacing_total_spec. cbn [negb andb].
  rewrite walk_order_Qsum in Ha, Hb. rewrite Z.add_0_l.
  destruct (Z.of_nat (length (filter visible l)) >? 1); cbn [fst snd];
    unfold gfloat_of_gint; rewrite Ha, Hb; split; lra.
Qed.

Lemma height_query_sum (l : list ClutterActor) :
  is_vertical priv = true ->
  let r := get_preferred_height priv container l for_size in
  let vis := filter visible l in
  fst r == (Qsum (map (fun c => fst (preferred_height c for_size)) vis)
            + spacing_total priv (length vis))%Q
  /\ snd r == (Qsum (map (fun c => snd (preferred_height c for_size)) vis)
               + spacing_total priv (length vis))%Q.
Proof.
  intros Hv. cbv zeta. unfold get_preferred_height.
  rewrite height_loop_filter, walk_order_visible.
  destruct (height_loop_sum priv for_size _ 0 0%Q 0%Q Hv
              (walk_order_all_visible (compute_is_rtl priv container) l))
    as (a & b & Heq & Ha & Hb).
  rewrite Heq, walk_order_length, Hv, spacing_total_spec. cbn [negb andb].
  rewrite walk_order_Qsum in Ha, Hb. rewrite Z.add_0_l.
  destruct (Z.of_nat (length (filter visible l)) >? 1); cbn [fst snd];
    unfold gfloat_of_gint; rewrite Ha, Hb; split; lra.
Qed.

Lemma is_maximum_zero : is_maximum 0%Q [0%Q].
Proof. split; constructor; try constructor; try reflexivity. apply Qle_refl. Qed.

Lemma width_query_max (l : list ClutterActor) :
  is_vertical priv = true ->
  let r := get_preferred_width priv container l for_size in
  let vis := filter visible l in
  is_maximum (fst r) (0%Q :: map (fun c => fst (preferred_width c (-1)%Q)) vis)
  /\ is_maximum (snd r) (0%Q :: map (fun c => snd (preferred_width c (-1)%Q)) vis).
Proof.
  intros Hv. cbv zeta. unfold get_preferred_width.
  rewrite width_loop_filter, walk_order_visible.
  destruct (width_loop_max priv for_size _ 0 0%Q 0%Q [0%Q] [0%Q] Hv
              (walk_order_all_visible (compute_is_rtl priv container) l)
              is_maximum_zero is_maximum_zero)
    as (a & b & Heq & Ha & Hb).
  rewrite Heq, Hv. cbn [negb andb fst snd].
  split; [exact (walk_order_maximum _ _ _ _ Ha) | exact (walk_order_maximum _ _ _ _ Hb)].
Qed.

Lemma height_query_max (l : list ClutterActor) :
  is_vertical priv = false ->
  let r := get_preferred_height priv container l for_size in
  let vis := filter visible l in
  is_maximum (fst r) (0%Q :: map (fun c => fst (preferred_height c (-1)%Q)) vis)
  /\ is_maximum (snd r) (0%Q :: map (fun c => snd (preferred_height c (-1)%Q)) vis).
Proof.
  intros Hv. cbv zeta. unfold get_preferred_height.
  rewrite height_loop_filter, walk_order_visible.
  destruct (height_loop_max priv for_size _ 0 0%Q 0%Q [0%Q] [0%Q] Hv
              (walk_order_all_visible (compute_is_rtl priv container) l)
              is_maximum_zero is_maximum_zero)
    as (a & b & Heq & Ha & Hb).
  rewrite Heq, Hv. cbn [negb andb fst snd].
  split; [exact (walk_order_maximum _ _ _ _ Ha) | exact (walk_order_maximum _ _ _ _ Hb)].
Qed.

Lemma filter_visible_idem (l : list ClutterActor) :
  filter visible (filter visible l) = filter visible l.
Proof. apply forallb_filter_id, forallb_filter. Qed.

(** Both queries give the same answer once the hidden children are
    taken out of the list. *)
Lemma width_query_hidden (l : list ClutterActor) :
  get_preferred_width priv container l for_size
  = get_preferred_width priv container (filter visible l) for_size.
Proof.
  unfold get_preferred_width.
  rewrite width_loop_filter, walk_order_visible.
  rewrite (width_loop_filter priv for_size (walk_order _ (filter visible l))).
  rewrite walk_order_visible.
  now rewrite filter_visible_idem.
Qed.

Lemma height_query_hidden (l : list ClutterActor) :
  get_preferred_height priv container l for_size
  = get_preferred_height priv container (filter visible l) for_size.
Proof.
  unfold get_preferred_height.
  rewrite height_loop_filter, walk_order_visible.
  rewrite (height_loop_filter priv for_size (walk_order _ (filter visible l))).
  rewrite walk_order_visible.
  now rewrite filter_visible_idem.
Qed.

End Queries.


(** ** Arithmetic of the shares *)








(** ** The [sizes] array *)

Lemma add_to_minimum_length (sizes : list ClutterRequestedSize) (idx : nat) (x : Z) :
  length (add_to_minimum sizes idx x) = length sizes.
Proof.
  revert idx. induction sizes as [|s sizes IH]; intros [|idx]; simpl; auto.
Qed.







(** ** The distribution loop as a walk over the visited indices *)


Section Walk.


End Walk.

(** ** The walk and the steps of the specification *)









(** ** One more unit of space *)


(** ** What is left over *)








(** ** The sort *)

Lemma gint_of_guint_wrap (z : Z) :
  - 2 ^ 31 <= z < 2 ^ 31 -> gint_of_guint (guint_wrap z) = z.
Proof.
  intros H. unfold gint_of_guint, guint_wrap.
  destruct (Z.neg_nonneg_cases z) as [Hneg | Hpos].
  - assert (E : z mod 2 ^ 32 = z + 2 ^ 32).
    { symmetry. apply Z.mod_unique with (q := -1); lia. }
    rewrite E. destruct (Z.ltb_spec (z + 2 ^ 32) (2 ^ 31)); lia.
  - rewrite Z.mod_small by lia. destruct (Z.ltb_spec z (2 ^ 31)); lia.
Qed.

(** The gap clamped at zero is the gap of a request whose natural size
    is not below its minimum. *)
Lemma clamped_gap (s : ClutterRequestedSize) :
  (minimum_size s <= natural_size s)%Q ->
  gint_of_gfloat (MAXf (natural_size s - minimum_size s)%Q 0%Q) = request_gap s.
Proof.
  intros H. unfold request_gap.
  destruct (MAXf_cases (natural_size s - minimum_size s)%Q 0%Q) as [[E _] | [E Hle]];
    rewrite E; [reflexivity|].
  apply gint_of_gfloat_comp. lra.
Qed.

Section CompareGap.

Variable sizes : list ClutterRequestedSize.

(** [compare_gap] on two different indices below [2^31] holding valid
    requests: not positive exactly when the first is above the second
    in the order of the pairs (gap, index). *)
Lemma compare_gap_above (c1 c2 : nat) :
  (minimum_size (sizes_get sizes c1) <= natural_size (sizes_get sizes c1))%Q ->
  (minimum_size (sizes_get sizes c2) <= natural_size (sizes_get sizes c2))%Q ->
  Z.of_nat c1 < 2 ^ 31 -> Z.of_nat c2 < 2 ^ 31 -> c1 <> c2 ->
  (compare_gap sizes c1 c2 <= 0 -> gap_index_gt sizes c1 c2)
  /\ (~ compare_gap sizes c1 c2 <= 0 -> gap_index_gt sizes c2 c1).
Proof.
  intros H1 H2 B1 B2 Hne. unfold compare_gap, gap_index_gt, gap_index_lt.
  rewrite !clamped_gap by assumption.
  set (d1 := request_gap (sizes_get sizes c1)).
  set (d2 := request_gap (sizes_get sizes c2)).
  destruct (Z.eqb_spec 0 (d2 - d1)) as [E | E].
  - rewrite gint_of_guint_wrap by lia. split; intros H; right; lia.
  - split; intros H; left; lia.
Qed.

Lemma gap_index_gt_trans (a b c : nat) :
  gap_index_gt sizes a b -> gap_index_gt sizes b c -> gap_index_gt sizes a c.
Proof. unfold gap_index_gt, gap_index_lt. lia. Qed.

Lemma gap_index_gt_asym (a b : nat) :
  gap_index_gt sizes a b -> ~ gap_index_gt sizes b a.
Proof. unfold gap_index_gt, gap_index_lt. lia. Qed.

Lemma sort_insert_perm (cmp : nat -> nat -> Z) (x : nat) (l : list nat) :
  Permutation (x :: l) (sort_insert cmp x l).
Proof.
  induction l as [|y l IH]; cbn [sort_insert]; [reflexivity|].
  destruct (cmp x y <=? 0); [reflexivity|].
  rewrite perm_swap. now constructor.
Qed.

Lemma g_qsort_with_data_perm (cmp : nat -> nat -> Z) (l : list nat) :
  Permutation l (g_qsort_with_data cmp l).
Proof.
  induction l as [|x l IH]; cbn; [constructor|].
  rewrite <- sort_insert_perm. now constructor.
Qed.

Lemma sort_insert_sorted (x : nat) (l : list nat) :
  sortable sizes x -> Forall (sortable sizes) l -> ~ In x l ->
  StronglySorted (gap_index_gt sizes) l ->
  StronglySorted (gap_index_gt sizes) (sort_insert (compare_gap sizes) x l).
Proof.
  intros [Vx Bx] Hl Hx Hs. induction Hs as [|y l Hs IH Hy]; cbn [sort_insert].
  - repeat constructor.
  - inversion Hl as [|? ? [Vy By] Hl']; subst.
    assert (Hne : x <> y) by (intros ->; apply Hx; now left).
    destruct (compare_gap_above x y Vx Vy Bx By Hne) as [Hle Hgt].
    destruct (Z.leb_spec (compare_gap sizes x y) 0) as [H | H].
    + constructor; [now constructor|].
      constructor; [now apply Hle|].
      eapply Forall_impl; [|exact Hy]. intros z Hz.
      eapply gap_index_gt_trans; [apply Hle; assumption | exact Hz].
    + constructor.
      * apply IH; [assumption | intros Hin; apply Hx; now right].
      * eapply Permutation_Forall; [apply sort_insert_perm|].
        constructor; [apply Hgt; lia | assumption].
Qed.

Lemma g_qsort_with_data_sorted (l : list nat) :
  Forall (sortable sizes) l -> NoDup l ->
  StronglySorted (gap_index_gt sizes) (g_qsort_with_data (compare_gap sizes) l).
Proof.
  intros Hl Hnd. induction l as [|x l IH]; cbn; [constructor|].
  inversion Hl; inversion Hnd; subst.
  apply sort_insert_sorted; auto.
  - eapply Permutation_Forall; [apply g_qsort_with_data_perm | assumption].
  - intros Hin. eapply Permutation_in in Hin;
      [|symmetry; apply g_qsort_with_data_perm]. contradiction.
Qed.

(** A list sorted by the pairs (gap, index) is determined by its
    elements, so any sort that honours [compare_gap] returns what the
    insertion sort returns. *)
Lemma sorted_spreading_unique (l1 l2 : list nat) :
  Permutation l1 l2 ->
  StronglySorted (gap_index_gt sizes) l1 ->
  StronglySorted (gap_index_gt sizes) l2 ->
  l1 = l2.
Proof.
  intros P S1. revert l2 P. induction S1 as [|a l1 S1 IH Ha]; intros l2 P S2.
  - now apply Permutation_nil in P.
  - destruct S2 as [|b l2 S2 Hb].
    + symmetry in P. now apply Permutation_nil in P.
    + rewrite Forall_forall in Ha, Hb.
      assert (a = b).
      { assert (Hin_a : In a (b :: l2)) by (eapply Permutation_in; [exact P | now left]).
        assert (Hin_b : In b (a :: l1))
          by (eapply Permutation_in; [symmetry; exact P | now left]).
        destruct Hin_a as [-> | Hin_a]; [reflexivity|].
        destruct Hin_b as [-> | Hin_b]; [reflexivity|].
        exfalso. eapply gap_index_gt_asym; [apply Ha, Hin_b | apply Hb, Hin_a]. }
      subst b. f_equal. apply IH; [|assumption].
      eapply Permutation_cons_inv; exact P.
Qed.

End CompareGap.

(** ** The gap distributor *)

Section Distributor.

Variable sizes : list ClutterRequestedSize.


Lemma spreading_perm : Permutation (sorted_spreading sizes) (seq 0 (length sizes)).
Proof. symmetry. apply g_qsort_with_data_perm. Qed.




Lemma valid_requests_get (j : nat) :
  Forall valid_request sizes -> valid_request (sizes_get sizes j).
Proof.
  intros H. unfold sizes_get.
  destruct (Nat.lt_ge_cases j (length sizes)) as [Hj | Hj].
  - rewrite Forall_forall in H. apply H, nth_In, Hj.
  - rewrite nth_overflow by assumption. split; cbn; lra.
Qed.

Lemma spreading_sorted :
  Forall valid_request sizes -> Z.of_nat (length sizes) <= 2 ^ 31 ->
  StronglySorted (gap_index_gt sizes) (sorted_spreading sizes).
Proof.
  intros Hval Hn. unfold sorted_spreading. apply g_qsort_with_data_sorted; [|apply seq_NoDup].
  apply Forall_forall. intros j Hj. apply in_seq in Hj. split.
  - apply valid_requests_get, Hval.
  - lia.
Qed.


End Distributor.






Section DistributorTheorems.

Variable sizes : list ClutterRequestedSize.
Variable e : Z.
Hypothesis extra_space_nonneg : 0 <= e.
Hypothesis sizes_valid : Forall valid_request sizes.


End DistributorTheorems.



(** C8.  A call with a negative [extra_space] fails the precondition
    check: a critical warning is logged, [sizes] is left as it was, no
    request is visited and 0 is returned. *)
Theorem distribute_negative_extra_space (e : Z) (n : nat)
        (sizes : list ClutterRequestedSize) :
  e < 0 ->
  distribute_natural_allocation e n sizes = mkDistribution 0 sizes [] true.
Proof.
  intros He. unfold distribute_natural_allocation.
  destruct (Z.geb_spec e 0) as [? | _]; [lia | reflexivity].
Qed.


(** ** The allocation pass: counting and requesting *)


Lemma flt_true (a b : Q) : flt a b = true <-> (a < b)%Q.
Proof.
  unfold flt. rewrite negb_true_iff. split; intros H.
  - apply Qnot_le_lt. intros Hle. apply Qle_bool_iff in Hle. congruence.
  - destruct (Qle_bool b a) eqn:E; [|reflexivity].
    apply Qle_bool_iff in E. lra.
Qed.


Lemma count_expand_children_loop (l : list ClutterActor) (nv ne : Z) :
  fold_left
    (fun (acc : Z * Z) (child : ClutterActor) =>
       let '(visible_children, expand_children) := acc in
       if visible child then
         (visible_children + 1,
          if expand (box_child child) then expand_children + 1 else expand_children)
       else acc) l (nv, ne)
  = (nv + Z.of_nat (length (filter visible l)),
     ne + Z.of_nat (length (filter (fun c => expand (box_child c)) (filter visible l)))).
Proof.
  revert nv ne. induction l as [|c l IH]; intros nv ne; cbn [fold_left filter].
  - cbn. f_equal; lia.
  - destruct (visible c); [|apply IH].
    cbn [filter]. destruct (expand (box_child c)); rewrite IH; cbn [length]; f_equal; lia.
Qed.

Lemma count_expand_children_spec (container : ClutterContainer) :
  count_expand_children container
  = (Z.of_nat (length (filter visible (children container))),
     Z.of_nat (length (filter (fun c => expand (box_child c))
                              (filter visible (children container))))).
Proof. unfold count_expand_children. now rewrite count_expand_children_loop. Qed.

Section Requests.

Variable priv : ClutterBoxLayoutPrivate.
Variable box : ClutterActorBox.

Lemma request_sizes_step (child : ClutterActor) (rest : list ClutterActor)
      (pos : nat) (size : Z) (sizes : list ClutterRequestedSize) :
  visible child = true ->
  request_sizes priv box (child :: rest) pos size sizes
  = if flt (minimum_size (child_request priv box child)) 0%Q
    then inl (MinimumBelowZero pos)
    else if flt (natural_size (child_request priv box child))
                (minimum_size (child_request priv box child))
         then inl (NaturalBelowMinimum pos)
         else request_sizes priv box rest (S pos)
                (gint_of_gfloat
                   (gfloat_of_gint size - minimum_size (child_request priv box child))%Q)
                (sizes ++ [child_request priv box child]).
Proof.
  intros Hv. cbn [request_sizes]. rewrite Hv. cbn [negb].
  unfold child_request.
  destruct (if is_vertical priv
            then preferred_height child (x2 box - x1 box)%Q
            else preferred_width child (y2 box - y1 box)%Q) as [mn nt].
  reflexivity.
Qed.

(** When every visible child passes the two checks, the loop records
    their requests in declaration order and subtracts their minimum
    sizes from [size]. *)
Lemma request_sizes_accepted (l : list ClutterActor) :
  forall (pos : nat) (size : Z) (sizes : list ClutterRequestedSize),
  forallb request_accepted (visible_requests priv box l) = true ->
  request_sizes priv box l pos size sizes
  = inr (subtract_minimums size (visible_requests priv box l),
         sizes ++ visible_requests priv box l).
Proof.
  unfold visible_requests.
  induction l as [|c l IH]; intros pos size sizes Hok.
  - cbn. now rewrite app_nil_r.
  - cbn [filter] in *. destruct (visible c) eqn:Hv.
    + cbn [map forallb] in Hok. apply andb_true_iff in Hok. destruct Hok as [Hc Hl].
      unfold request_accepted in Hc. apply andb_true_iff in Hc.
      rewrite !negb_true_iff in Hc. destruct Hc as [Hc1 Hc2].
      rewrite request_sizes_step, Hc1, Hc2 by assumption.
      rewrite IH by assumption. cbn [map]. unfold subtract_minimums. cbn [fold_left].
      now rewrite <- app_assoc.
    + cbn [request_sizes]. rewrite Hv. cbn [negb]. now apply IH.
Qed.

(** When a visible child fails a check, the loop ends in [g_error]. *)
Lemma request_sizes_rejected (l : list ClutterActor) :
  forall (pos : nat) (size : Z) (sizes : list ClutterRequestedSize),
  forallb request_accepted (visible_requests priv box l) = false ->
  exists err, request_sizes priv box l pos size sizes = inl err.
Proof.
  unfold visible_requests.
  induction l as [|c l IH]; intros pos size sizes Hbad.
  - cbn in Hbad. discriminate.
  - cbn [filter] in *. destruct (visible c) eqn:Hv.
    + cbn [map forallb] in Hbad. rewrite request_sizes_step by assumption.
      unfold request_accepted in Hbad.
      destruct (flt (minimum_size (child_request priv box c)) 0%Q); [eauto|].
      destruct (flt (natural_size (child_request priv box c))
                    (minimum_size (child_request priv box c))); [eauto|].
      cbn [negb andb] in Hbad. now apply IH.
    + cbn [request_sizes]. rewrite Hv. cbn [negb]. now apply IH.
Qed.

End Requests.

(** ** The allocation pass: its three outcomes *)

Section Outcomes.

Variable priv : ClutterBoxLayoutPrivate.
Variable container : ClutterContainer.
Variable box : ClutterActorBox.
Variable stray : nat -> ClutterRequestedSize.

Lemma allocate_no_visible :
  filter visible (children container) = [] ->
  clutter_box_layout_allocate priv container box stray = inr [].
Proof.
  intros H. unfold clutter_box_layout_allocate.
  rewrite count_expand_children_spec, H. reflexivity.
Qed.

Lemma allocate_rejected :
  filter visible (children container) <> [] ->
  forallb request_accepted (visible_requests priv box (children container)) = false ->
  exists err, clutter_box_layout_allocate priv container box stray = inl err.
Proof.
  intros Hne Hbad. unfold clutter_box_layout_allocate.
  rewrite count_expand_children_spec.
  destruct (filter visible (children container)) as [|c vis] eqn:E; [congruence|].
  destruct (Z.leb_spec (Z.of_nat (length (c :: vis))) 0) as [H | _];
    [cbn [length] in H; lia|].
  destruct (request_sizes_rejected priv box (children container) 0%nat
              (available_size priv box (Z.of_nat (length (c :: vis)))) [] Hbad)
    as [err ->].
  now exists err.
Qed.

Lemma allocate_accepted :
  filter visible (children container) <> [] ->
  forallb request_accepted (visible_requests priv box (children container)) = true ->
  let nvis := Z.of_nat (length (filter visible (children container))) in
  let nexpand := Z.of_nat (length (filter (fun c => expand (box_child c))
                                          (filter visible (children container)))) in
  let requests := visible_requests priv box (children container) in
  clutter_box_layout_allocate priv container box stray
  = let '(extra, n_extra_widgets, sizes) :=
      share_out priv box nvis nexpand
                (subtract_minimums (available_size priv box nvis) requests) requests in
    inr (allocate_loop priv box (compute_is_rtl priv container) extra sizes stray
                       (rev (children container))
                       (initial_state priv box n_extra_widgets)).
Proof.
  intros Hne Hok. cbv zeta. unfold clutter_box_layout_allocate.
  rewrite count_expand_children_spec.
  destruct (Z.leb_spec (Z.of_nat (length (filter visible (children container)))) 0)
    as [H | _].
  - destruct (filter visible (children container)); [congruence | cbn [length] in H; lia].
  - rewrite request_sizes_accepted by assumption. reflexivity.
Qed.

End Outcomes.

Lemma forallb_false_Exists {A : Type} (f : A -> bool) (l : list A) :
  forallb f l = false <-> Exists (fun x => f x = false) l.
Proof.
  induction l as [|a l IH]; cbn [forallb].
  - split; [discriminate | intros H; inversion H].
  - rewrite andb_false_iff, IH. split.
    + intros [H | H]; [now left | now right].
    + intros H. inversion H; subst; [now left | now right].
Qed.

Lemma request_rejected (s : ClutterRequestedSize) :
  request_accepted s = false
  <-> (natural_size s < minimum_size s)%Q \/ (minimum_size s < 0)%Q.
Proof.
  unfold request_accepted.
  rewrite andb_false_iff, !negb_false_iff, !flt_true. tauto.
Qed.

(** C9.  A visible child whose preferred size has [natural < minimum]
    or [minimum < 0] makes the pass end in [g_error], which aborts the
    program: no child is allocated, and nothing is clamped.  The pass
    ends that way for no other reason. *)
Theorem allocate_inconsistent_child (priv : ClutterBoxLayoutPrivate)
        (container : ClutterContainer) (box : ClutterActorBox)
        (stray : nat -> ClutterRequestedSize) :
  (exists child, In child (children container) /\ visible child = true
                 /\ ((natural_size (child_request priv box child)
                      < minimum_size (child_request priv box child))%Q
                     \/ (minimum_size (child_request priv box child) < 0)%Q))
  <-> (exists err, clutter_box_layout_allocate priv container box stray = inl err).
Proof.
  split.
  - intros (child & Hin & Hv & Hbad).
    apply allocate_rejected.
    + intros E. assert (H : In child (filter visible (children container)))
        by (apply filter_In; now split).
      rewrite E in H. contradiction.
    + apply forallb_false_Exists, Exists_exists.
      exists (child_request priv box child). split.
      * unfold visible_requests. apply in_map, filter_In. now split.
      * now apply request_rejected.
  - intros [err Herr].
    destruct (filter visible (children container)) as [|c0 vis0] eqn:Evis.
    + rewrite allocate_no_visible in Herr by assumption. discriminate.
    + destruct (forallb request_accepted
                  (visible_requests priv box (children container))) eqn:Hok.
      * rewrite allocate_accepted in Herr by (assumption || congruence).
        destruct (share_out _ _ _ _ _ _) as [[? ?] ?]. discriminate.
      * apply forallb_false_Exists, Exists_exists in Hok.
        destruct Hok as (s & Hs & Hbad). unfold visible_requests in Hs.
        apply in_map_iff in Hs. destruct Hs as (child & <- & Hc).
        apply filter_In in Hc. destruct Hc as [Hin Hv].
        exists child. repeat split; try assumption. now apply request_rejected.
Qed.

(** ** The allocation pass: the second loop *)

Section SecondLoop.

Variable priv : ClutterBoxLayoutPrivate.
Variable box : ClutterActorBox.
Variable is_rtl : bool.
Variable extra : Z.
Variable sizes : list ClutterRequestedSize.
Variable stray : nat -> ClutterRequestedSize.

(** A hidden child changes nothing. *)
Lemma allocate_step_hidden (i : nat) (child : ClutterActor) (st : alloc_state) :
  visible child = false ->
  allocate_step priv box is_rtl extra sizes stray i child st = (st, None).
Proof. intros H. unfold allocate_step. now rewrite H. Qed.

(** A visible child is allocated: the call carries its position and its
    [child_size], and the loop goes on with the new [n_extra_widgets]. *)
Lemma allocate_step_visible (i : nat) (child : ClutterActor) (st : alloc_state) :
  visible child = true ->
  exists st' a,
    allocate_step priv box is_rtl extra sizes stray i child st = (st', Some a)
    /\ alloc_index a = i
    /\ alloc_child_size a
       = fst (assign_child_size priv extra (sizes_read sizes stray i) child
                                (st_n_extra_widgets st))
    /\ st_n_extra_widgets st'
       = snd (assign_child_size priv extra (sizes_read sizes stray i) child
                                (st_n_extra_widgets st))
    /\ st_child_allocation st' = alloc_box a.
Proof.
  intros H. unfold allocate_step. rewrite H. cbn [negb].
  destruct (assign_child_size _ _ _ _ _) as [child_size n_extra].
  destruct (is_vertical priv).
  - destruct (assign_position_vertical _ _ _ _ _ _) as [y ca].
    eexists _, _. repeat split.
  - destruct (assign_position_horizontal _ _ _ _ _ _ _ _) as [x ca].
    eexists _, _. repeat split.
Qed.




End SecondLoop.






(** ** The rectangles *)





Section Rectangles.

Variable priv : ClutterBoxLayoutPrivate.
Variable box : ClutterActorBox.
Variable is_rtl : bool.
Variable extra : Z.
Variable sizes : list ClutterRequestedSize.
Variable stray : nat -> ClutterRequestedSize.



End Rectangles.



(** ** Right-to-left layouts *)

Section Mirroring.

Variable priv : ClutterBoxLayoutPrivate.
Variable box : ClutterActorBox.
Variable extra : Z.
Variable sizes : list ClutterRequestedSize.
Variable stray : nat -> ClutterRequestedSize.
Hypothesis horizontal : is_vertical priv = false.


End Mirroring.


(** ** One more unit of primary extent *)



Section TwoPasses.

Variable priv : ClutterBoxLayoutPrivate.
Variables box box' : ClutterActorBox.
Variable is_rtl : bool.
Variables extra extra' : Z.
Variables sizes sizes' : list ClutterRequestedSize.
Variable stray : nat -> ClutterRequestedSize.

Hypothesis sizes_le :
  forall i, gint_of_gfloat (minimum_size (sizes_read sizes stray i))
            <= gint_of_gfloat (minimum_size (sizes_read sizes' stray i)).


End TwoPasses.

Section Growing.

Variable priv : ClutterBoxLayoutPrivate.
Variable box : ClutterActorBox.





End Growing.

Lemma sizes_read_in_range (sizes : list ClutterRequestedSize)
      (stray : nat -> ClutterRequestedSize) (i : nat) :
  (i < length sizes)%nat -> sizes_read sizes stray i = sizes_get sizes i.
Proof. intros H. unfold sizes_read, sizes_get. now apply nth_indep. Qed.

Lemma sizes_read_stray (sizes : list ClutterRequestedSize)
      (stray : nat -> ClutterRequestedSize) (i : nat) :
  (length sizes <= i)%nat -> sizes_read sizes stray i = stray i.
Proof. intros H. unfold sizes_read. now apply nth_overflow. Qed.



Lemma visible_requests_length (priv : ClutterBoxLayoutPrivate) (box : ClutterActorBox)
      (l : list ClutterActor) :
  length (visible_requests priv box l) = length (filter visible l).
Proof. unfold visible_requests. apply length_map. Qed.


(** ** The sum of the child sizes *)









Section SumOfSizes.

Variable priv : ClutterBoxLayoutPrivate.
Variable box : ClutterActorBox.
Variable is_rtl : bool.
Variable extra : Z.
Variable sizes : list ClutterRequestedSize.
Variable stray : nat -> ClutterRequestedSize.
Hypothesis not_homogeneous : is_homogeneous priv = false.


End SumOfSizes.







Lemma filter_visible_split (vs hs : list ClutterActor) :
  Forall (fun c => visible c = true) vs ->
  Forall (fun c => visible c = false) hs ->
  filter visible (vs ++ hs) = vs.
Proof.
  intros Hv Hh. rewrite filter_app.
  replace (filter visible hs) with (@nil ClutterActor).
  - rewrite app_nil_r. apply forallb_filter_id, forallb_forall.
    now apply Forall_forall.
  - symmetry. induction Hh as [|c hs Hc Hh IH]; [reflexivity|].
    cbn [filter]. now rewrite Hc.
Qed.


(** ** Who gets the extra units *)

Section ExtraUnits.

Variable priv : ClutterBoxLayoutPrivate.
Variable box : ClutterActorBox.
Variable is_rtl : bool.
Variable extra : Z.
Variable sizes : list ClutterRequestedSize.
Variable stray : nat -> ClutterRequestedSize.
Hypothesis not_homogeneous : is_homogeneous priv = false.


End ExtraUnits.



(** ** The statements on sample layouts *)

Lemma two_requests_valid : Forall valid_request two_requests.
Proof. unfold two_requests. requests_valid. Qed.





Lemma distribute_negative_extra_space_witness :
  -1 < 0
  /\ distribute_natural_allocation (-1) 2 two_requests
     = mkDistribution 0 two_requests [] true.
Proof.
  assert (H : -1 < 0) by lia.
  split; [exact H|]. exact (distribute_negative_extra_space (-1) 2 two_requests H).
Defined.

(** Sizes that are not whole pixels.  The gap the distributor works
    with is a [gint]: requests with gaps 1.5 and 1.2 both count as gap
    1, so the tie goes to the lower index although its gap is the
    larger one, and each receives 1. *)
Lemma fractional_gaps_are_truncated :
  let d := distribute_natural_allocation 5 2 fractional_requests in
  dist_visited d = [0%nat; 1%nat]
  /\ dist_return d = 3
  /\ Forall2 request_eq (dist_sizes d) [mkRequest 1%Q (3 # 2); mkRequest 1%Q (6 # 5)].
Proof.
  cbv zeta. split; [reflexivity|]. split; [reflexivity|].
  repeat constructor; vm_compute; reflexivity.
Qed.

(** A single expanding child of half a pixel in a box one pixel wide:
    [size] and [child_size] are [gint], the half pixel is lost twice
    and the child size is 0. *)
Lemma fractional_sizes_fall_short :
  child_sizes (clutter_box_layout_allocate (horizontal_layout 0 false)
                 (ltr_container [half_pixel_child]) (box_of_width 1) no_stray)
  = [0].
Proof. reflexivity. Qed.

(** The hidden-child defect.  The second loop numbers the children by
    their position in the whole list, the [sizes] array holds one entry
    per visible child: with a hidden child in front, the first visible
    child is given the size of the second, and the last one whatever
    lies past the end of the array. *)
Lemma hidden_child_shifts_sizes (stray : nat -> ClutterRequestedSize) :
  child_sizes (clutter_box_layout_allocate (horizontal_layout 0 false)
                 (ltr_container hidden_then_two) (box_of_width 100) stray)
  = [gint_of_gfloat (minimum_size (stray 2%nat)); 30].
Proof. reflexivity. Qed.







Lemma allocate_inconsistent_child_witness :
  exists err,
    clutter_box_layout_allocate (horizontal_layout 5 false)
      (ltr_container [inconsistent_child]) (box_of_width 100) no_stray = inl err.
Proof.
  apply (proj1 (allocate_inconsistent_child (horizontal_layout 5 false)
                  (ltr_container [inconsistent_child]) (box_of_width 100) no_stray)).
  exists inconsistent_child. split; [left; reflexivity|]. split; [reflexivity|].
  left. reflexivity.
Defined.


(** * Further properties *)

(** ** The order of the calls *)

Lemma visible_positions_from_snoc (l : list ClutterActor) (c : ClutterActor) :
  forall pos,
  visible_positions_from pos (l ++ [c])
  = visible_positions_from pos l
    ++ (if visible c then [(pos + length l)%nat] else []).
Proof.
  induction l as [|d l IH]; intros pos; cbn [app visible_positions_from length].
  - rewrite Nat.add_0_r. now destruct (visible c).
  - rewrite IH. replace (S pos + length l)%nat with (pos + S (length l))%nat by lia.
    now destruct (visible d).
Qed.

Lemma allocate_loop_indices (priv : ClutterBoxLayoutPrivate) (box : ClutterActorBox)
      (is_rtl : bool) (extra : Z) (sizes : list ClutterRequestedSize)
      (stray : nat -> ClutterRequestedSize) (l : list ClutterActor) :
  forall st,
  map alloc_index (allocate_loop priv box is_rtl extra sizes stray (rev l) st)
  = rev (visible_positions l).
Proof.
  unfold visible_positions.
  induction l as [|c l IH] using rev_ind; intros st; [reflexivity|].
  rewrite rev_app_distr. cbn [rev app allocate_loop].
  rewrite visible_positions_from_snoc, rev_app_distr, length_rev.
  destruct (visible c) eqn:Hv.
  - destruct (allocate_step_visible priv box is_rtl extra sizes stray
                (length l) c st Hv) as (st' & a & -> & Hi & _).
    cbn [map rev app]. now rewrite IH, Hi.
  - rewrite allocate_step_hidden by assumption. cbn [rev app]. apply IH.
Qed.

Lemma visible_positions_none (l : list ClutterActor) :
  filter visible l = [] -> forall pos, visible_positions_from pos l = [].
Proof.
  induction l as [|c l IH]; intros H pos; [reflexivity|].
  cbn [filter visible_positions_from] in *.
  destruct (visible c); [discriminate|]. now apply IH.
Qed.

(** X1.  A pass that is not stopped calls [allocate_box_child] once for
    each visible child and for no other, from the last declared child
    to the first. *)
Theorem allocate_calls_in_reverse_order (priv : ClutterBoxLayoutPrivate)
        (container : ClutterContainer) (box : ClutterActorBox)
        (stray : nat -> ClutterRequestedSize) :
  forallb request_accepted (visible_requests priv box (children container)) = true ->
  exists calls,
    clutter_box_layout_allocate priv container box stray = inr calls
    /\ map alloc_index calls = rev (visible_positions (children container)).
Proof.
  intros Hok.
  assert (Hcases : filter visible (children container) = []
                   \/ filter visible (children container) <> [])
    by (destruct (filter visible (children container)); [now left | now right]).
  destruct Hcases as [Evis | Hne].
  - exists []. rewrite allocate_no_visible by assumption. split; [reflexivity|].
    unfold visible_positions. now rewrite visible_positions_none.
  - rewrite allocate_accepted by assumption.
    destruct (share_out _ _ _ _ _ _) as [[extra n_extra] sizes].
    eexists. split; [reflexivity|]. apply allocate_loop_indices.
Qed.

(** ** The walk of the cursor *)

Section CursorWalk.

Variable priv : ClutterBoxLayoutPrivate.
Variable box : ClutterActorBox.
Variable is_rtl : bool.
Variable extra : Z.
Variable sizes : list ClutterRequestedSize.
Variable stray : nat -> ClutterRequestedSize.
Hypothesis not_mirrored : is_vertical priv = true \/ is_rtl = false.




End CursorWalk.



(** ** Packing from the end *)

Section PackEnd.

Variable sp : N.
Variable homogeneous : bool.
Variable box : ClutterActorBox.
Variable extra : Z.
Variable sizes : list ClutterRequestedSize.
Variable stray : nat -> ClutterRequestedSize.
Variable E : Z.
Hypothesis whole_width : (x2 box - x1 box == inject_Z E)%Q.


End PackEnd.



(** ** Enough space for every gap *)





(** ** The total of a homogeneous layout *)



(** ** Sizes read from the requests *)


Section RequestedSizes.

Variable priv : ClutterBoxLayoutPrivate.
Variable box : ClutterActorBox.
Variable is_rtl : bool.
Variable extra : Z.
Variable sizes : list ClutterRequestedSize.
Variable stray : nat -> ClutterRequestedSize.

Hypothesis not_homogeneous : is_homogeneous priv = false.

(** Outside a homogeneous layout a child that does not expand is given
    the minimum size found at its position in [sizes]; so is every
    child when there is nothing to share out. *)
Lemma allocate_loop_requested (backwards suffix : list ClutterActor) (st : alloc_state) :
  Forall
    (fun a =>
       exists child,
         nth_error (rev backwards ++ suffix) (alloc_index a) = Some child
         /\ visible child = true
         /\ (expand (box_child child) = false
             \/ (extra = 0 /\ st_n_extra_widgets st <= 0) ->
             alloc_child_size a
             = gint_of_gfloat (minimum_size (sizes_read sizes stray (alloc_index a))))
         /\ (0 <= extra ->
             gint_of_gfloat (minimum_size (sizes_read sizes stray (alloc_index a)))
             <= alloc_child_size a))
    (allocate_loop priv box is_rtl extra sizes stray backwards st).
Proof.
  revert suffix st. induction backwards as [|c before IH]; intros suffix st.
  - constructor.
  - cbn [allocate_loop]. cbn [rev]. rewrite <- app_assoc. cbn [app].
    destruct (visible c) eqn:Hv.
    + destruct (allocate_step_visible priv box is_rtl extra sizes stray
                  (length before) c st Hv) as (st' & a & Hstep & Hidx & Hsize & Hn & _).
      rewrite Hstep.
      unfold assign_child_size in Hsize, Hn. rewrite not_homogeneous in Hsize, Hn.
      constructor.
      * exists c. rewrite Hidx. split; [|split; [assumption|split]].
        -- rewrite nth_error_app2 by (rewrite length_rev; lia).
           now rewrite length_rev, Nat.sub_diag.
        -- rewrite Hsize. intros [Hex | [He Hle]].
           ++ now rewrite Hex.
           ++ destruct (expand (box_child c)); [|reflexivity].
              destruct (Z.gtb_spec (st_n_extra_widgets st) 0); cbn [fst]; lia.
        -- rewrite Hsize. intros He.
           destruct (expand (box_child c)); [|cbn [fst]; lia].
           destruct (Z.gtb_spec (st_n_extra_widgets st) 0); cbn [fst]; lia.
      * eapply Forall_impl; [|apply (IH (c :: suffix) st')].
        intros a' (child & H1 & H2 & H3 & H4). exists child.
        split; [assumption|]. split; [assumption|]. split; [|assumption].
        intros [Hex | [He Hle]]; apply H3; [now left|].
        right. split; [assumption|]. rewrite Hn.
        destruct (expand (box_child c)); [|assumption].
        destruct (Z.gtb_spec (st_n_extra_widgets st) 0); cbn [snd]; lia.
    + rewrite allocate_step_hidden by assumption. apply IH.
Qed.

End RequestedSizes.






(** ** Room for the natural sizes *)








(** ** Even shares *)







(** ** The layout's own request *)

Lemma Qsum_le {A : Type} (f g : A -> Q) (l : list A) :
  Forall (fun x => (f x <= g x)%Q) l -> (Qsum (map f l) <= Qsum (map g l))%Q.
Proof.
  induction 1 as [|x l Hx Hl IH]; cbn [map].
  - apply Qle_refl.
  - rewrite !Qsum_cons. lra.
Qed.

Lemma Qsum_nonneg {A : Type} (f : A -> Q) (l : list A) :
  Forall (fun x => (0 <= f x)%Q) l -> (0 <= Qsum (map f l))%Q.
Proof.
  induction 1 as [|x l Hx Hl IH]; cbn [map].
  - rewrite Qsum_nil. apply Qle_refl.
  - rewrite Qsum_cons. lra.
Qed.

Lemma spacing_total_nonneg (priv : ClutterBoxLayoutPrivate) (n : nat) :
  (0 <= spacing_total priv n)%Q.
Proof.
  unfold spacing_total. destruct (Nat.ltb_spec 1 n) as [H | H]; [|apply Qle_refl].
  change 0%Q with (inject_Z 0). rewrite <- Zle_Qle. nia.
Qed.

(** The largest of 0 and the minimum sizes is not above the largest of
    0 and the natural sizes. *)
Lemma is_maximum_le {A : Type} (f g : A -> Q) (l : list A) (m n : Q) :
  Forall (fun x => (f x <= g x)%Q) l ->
  is_maximum m (0%Q :: map f l) -> is_maximum n (0%Q :: map g l) ->
  (0 <= m <= n)%Q.
Proof.
  intros Hfg [Hm_all Hm_in] [Hn_all _].
  inversion Hm_all as [|? ? Hm0 _]; subst.
  inversion Hn_all as [|? ? Hn0 Hn_rest]; subst.
  split; [assumption|].
  inversion Hm_in as [? ? Hhead | ? ? Htail]; subst.
  - rewrite <- Hhead. assumption.
  - apply Exists_exists in Htail. destruct Htail as (q & Hq & Heq).
    apply in_map_iff in Hq. destruct Hq as (x & <- & Hx).
    rewrite <- Heq. rewrite Forall_forall in Hfg, Hn_rest.
    apply Qle_trans with (g x); [now apply Hfg|].
    apply Hn_rest. now apply in_map.
Qed.

(** X11.  What the layout reports satisfies the invariant the
    allocation pass demands of every child: when each visible child
    answers [0 <= minimum <= natural] along the layout axis, so does
    the layout; across the axis the answer is never negative, and the
    minimum is not above the natural size when that holds for each
    visible child.  A box layout packed in a box layout is never the
    child that stops the pass. *)
Theorem measure_keeps_request_invariant (priv : ClutterBoxLayoutPrivate)
        (container : ClutterContainer) (for_size : Q) :
  let vis := filter visible (children container) in
  (Forall (fun c => (0 <= fst (primary_request priv for_size c)
                     <= snd (primary_request priv for_size c))%Q) vis ->
   (0 <= fst (measure_primary priv container for_size)
    <= snd (measure_primary priv container for_size))%Q)
  /\ (Forall (fun c => (fst (cross_request priv c) <= snd (cross_request priv c))%Q) vis ->
      (0 <= fst (measure_cross priv container for_size)
       <= snd (measure_cross priv container for_size))%Q).
Proof.
  cbv zeta. split.
  - intros Hval.
    assert (Hsum :
      fst (measure_primary priv container for_size)
      == (Qsum (map (fun c => fst (primary_request priv for_size c))
                    (filter visible (children container)))
          + spacing_total priv (length (filter visible (children container))))%Q
      /\ snd (measure_primary priv container for_size)
         == (Qsum (map (fun c => snd (primary_request priv for_size c))
                       (filter visible (children container)))
             + spacing_total priv (length (filter visible (children container))))%Q).
    { unfold measure_primary, primary_request,
        clutter_box_layout_get_preferred_width, clutter_box_layout_get_preferred_height.
      destruct (is_vertical priv) eqn:Hv.
      - now apply height_query_sum.
      - now apply width_query_sum. }
    destruct Hsum as [-> ->].
    pose proof (spacing_total_nonneg priv
                  (length (filter visible (children container)))) as Hsp.
    pose proof (Qsum_nonneg (fun c => fst (primary_request priv for_size c))
                  (filter visible (children container))) as H0.
    pose proof (Qsum_le (fun c => fst (primary_request priv for_size c))
                  (fun c => snd (primary_request priv for_size c))
                  (filter visible (children container))) as H1.
    assert (0 <= Qsum (map (fun c => fst (primary_request priv for_size c))
                           (filter visible (children container))))%Q
      by (apply H0; eapply Forall_impl; [|exact Hval]; intros c Hc; apply Hc).
    assert (Qsum (map (fun c => fst (primary_request priv for_size c))
                      (filter visible (children container)))
            <= Qsum (map (fun c => snd (primary_request priv for_size c))
                         (filter visible (children container))))%Q
      by (apply H1; eapply Forall_impl; [|exact Hval]; intros c Hc; apply Hc).
    split; lra.
  - intros Hval.
    assert (Hcross :
      is_maximum (fst (measure_cross priv container for_size))
                 (0%Q :: map (fun c => fst (cross_request priv c))
                             (filter visible (children container)))
      /\ is_maximum (snd (measure_cross priv container for_size))
                    (0%Q :: map (fun c => snd (cross_request priv c))
                                (filter visible (children container)))).
    { unfold measure_cross, cross_request,
        clutter_box_layout_get_preferred_width, clutter_box_layout_get_preferred_height.
      destruct (is_vertical priv) eqn:Hv.
      - now apply width_query_max.
      - now apply height_query_max. }
    destruct Hcross as [Hmin Hnat].
    exact (is_maximum_le _ _ _ _ _ Hval Hmin Hnat).
Qed.

(** X12.  A container with no visible child: both queries answer 0 for
    the minimum and the natural size, whatever the spacing, and the
    allocation pass makes no call. *)
Theorem nothing_visible (priv : ClutterBoxLayoutPrivate)
        (container : ClutterContainer) (for_size : Q) (box : ClutterActorBox)
        (stray : nat -> ClutterRequestedSize) :
  filter visible (children container) = [] ->
  clutter_box_layout_get_preferred_width priv container for_size = (0%Q, 0%Q)
  /\ clutter_box_layout_get_preferred_height priv container for_size = (0%Q, 0%Q)
  /\ clutter_box_layout_allocate priv container box stray = inr [].
Proof.
  intros Hnone. split; [|split].
  - unfold clutter_box_layout_get_preferred_width.
    rewrite width_query_hidden, Hnone. unfold get_preferred_width.
    destruct (compute_is_rtl priv container); cbn [walk_order rev fold_left];
      now rewrite andb_false_r.
  - unfold clutter_box_layout_get_preferred_height.
    rewrite height_query_hidden, Hnone. unfold get_preferred_height.
    destruct (compute_is_rtl priv container); cbn [walk_order rev fold_left];
      now rewrite andb_false_r.
  - now apply allocate_no_visible.
Qed.

(** ** The comparison decides the order *)

Lemma StronglySorted_NoDup_impl {A : Type} (R R' : A -> A -> Prop) (l : list A) :
  NoDup l ->
  (forall a b, In a l -> In b l -> a <> b -> R a b -> R' a b) ->
  StronglySorted R l -> StronglySorted R' l.
Proof.
  intros Hnd Himp Hs. induction Hs as [|a l Hs IH Ha]; [constructor|].
  inversion Hnd as [|? ? Hnotin Hnd']; subst.
  constructor.
  - apply IH; [assumption|]. intros x y Hx Hy. apply Himp; now right.
  - rewrite Forall_forall in *. intros b Hb.
    apply Himp; [now left | now right | | now apply Ha].
    intros ->. contradiction.
Qed.

(** X13.  [compare_gap] leaves the sort no choice.  On valid requests,
    fewer than [2^31] of them, every arrangement of the indices in
    which no index compares above a later one is the one array the
    distributor walks: the result of [distribute_natural_allocation]
    does not depend on how [g_qsort_with_data] sorts. *)
Theorem compare_gap_fixes_the_order (sizes : list ClutterRequestedSize)
        (spreading : list nat) :
  Forall valid_request sizes -> Z.of_nat (length sizes) <= 2 ^ 31 ->
  Permutation spreading (seq 0 (length sizes)) ->
  StronglySorted (fun c1 c2 => compare_gap sizes c1 c2 <= 0) spreading ->
  spreading = g_qsort_with_data (compare_gap sizes) (seq 0 (length sizes)).
Proof.
  intros Hval Hn Hperm Hsorted.
  fold (sorted_spreading sizes).
  apply (sorted_spreading_unique sizes).
  - rewrite Hperm. symmetry. apply spreading_perm.
  - apply (StronglySorted_NoDup_impl (fun c1 c2 => compare_gap sizes c1 c2 <= 0));
      [| |assumption].
    + eapply Permutation_NoDup; [symmetry; exact Hperm | apply seq_NoDup].
    + intros a b Ha Hb Hne Hcmp.
      assert (Hra : (a < length sizes)%nat)
        by (apply (Permutation_in a Hperm) in Ha; apply in_seq in Ha; lia).
      assert (Hrb : (b < length sizes)%nat)
        by (apply (Permutation_in b Hperm) in Hb; apply in_seq in Hb; lia).
      apply (compare_gap_above sizes a b); try assumption; try lia;
        apply valid_requests_get; assumption.
  - now apply spreading_sorted.
Qed.

(** ** The two orientations *)

Lemma compute_is_rtl_ltr (priv : ClutterBoxLayoutPrivate) (container : ClutterContainer) :
  text_direction container <> CLUTTER_TEXT_DIRECTION_RTL ->
  compute_is_rtl priv container = false.
Proof.
  intros H. unfold compute_is_rtl.
  destruct (negb (is_vertical priv)); [|reflexivity].
  destruct (text_direction container); try reflexivity. congruence.
Qed.

Lemma preferred_step_transposed (priv : ClutterBoxLayoutPrivate) (for_size : Q)
      (st : measure_state) (c : ClutterActor) :
  preferred_height_step (transpose_layout priv) for_size st (transpose_child c)
  = preferred_width_step priv for_size st c
  /\ preferred_width_step (transpose_layout priv) for_size st (transpose_child c)
     = preferred_height_step priv for_size st c.
Proof.
  unfold preferred_height_step, preferred_width_step, transpose_layout, transpose_child.
  destruct st as [[n mn] nt].
  cbn [is_vertical visible preferred_height preferred_width].
  destruct (visible c), (is_vertical priv); cbn [negb]; split; reflexivity.
Qed.

Lemma preferred_loop_transposed (priv : ClutterBoxLayoutPrivate) (for_size : Q)
      (l : list ClutterActor) :
  forall st,
  fold_left (preferred_height_step (transpose_layout priv) for_size)
            (map transpose_child l) st
  = fold_left (preferred_width_step priv for_size) l st
  /\ fold_left (preferred_width_step (transpose_layout priv) for_size)
               (map transpose_child l) st
     = fold_left (preferred_height_step priv for_size) l st.
Proof.
  induction l as [|c l IH]; intros st; [split; reflexivity|].
  cbn [map fold_left].
  destruct (preferred_step_transposed priv for_size st c) as [-> ->].
  split; apply IH.
Qed.

(** X14.  The two queries are one computation.  In a container that is
    not right-to-left, the preferred width of a layout is the preferred
    height of the layout of the other orientation over the children
    with their two axes exchanged, and the other way round. *)
Theorem measure_transposed (priv : ClutterBoxLayoutPrivate)
        (container : ClutterContainer) (for_size : Q) :
  text_direction container <> CLUTTER_TEXT_DIRECTION_RTL ->
  clutter_box_layout_get_preferred_height (transpose_layout priv)
    (transpose_container container) for_size
  = clutter_box_layout_get_preferred_width priv container for_size
  /\ clutter_box_layout_get_preferred_width (transpose_layout priv)
       (transpose_container container) for_size
     = clutter_box_layout_get_preferred_height priv container for_size.
Proof.
  intros Hdir.
  unfold clutter_box_layout_get_preferred_height, clutter_box_layout_get_preferred_width,
    get_preferred_height, get_preferred_width.
  rewrite !compute_is_rtl_ltr by assumption.
  cbn [walk_order transpose_container children].
  destruct (preferred_loop_transposed priv for_size (children container) (0, 0%Q, 0%Q))
    as [-> ->].
  unfold transpose_layout. cbn [is_vertical spacing].
  rewrite negb_involutive. split; reflexivity.
Qed.







Section TransposedLoop.

Variable priv : ClutterBoxLayoutPrivate.
Variable box : ClutterActorBox.
Variable extra : Z.
Variable sizes : list ClutterRequestedSize.
Variable stray : nat -> ClutterRequestedSize.



End TransposedLoop.


(** ** The setters of the layout *)

Lemma gboolean_of_bit_range (b : bool) : 0 <= gboolean_of_bit b <= 1.
Proof. destruct b; cbn; lia. Qed.

Lemma gboolean_of_bit_inj (a b : bool) :
  gboolean_of_bit a = gboolean_of_bit b -> a = b.
Proof. destruct a, b; cbn; congruence. Qed.

Lemma truth_of_bit (b : bool) : truth_of_gboolean (gboolean_of_bit b) = b.
Proof. now destruct b. Qed.

Lemma bit_of_bit (b : bool) : bit_of_gboolean (gboolean_of_bit b) = b.
Proof. now destruct b. Qed.

Lemma with_priv_same (layout : ClutterBoxLayout) :
  with_priv layout (layout_priv layout) = layout.
Proof. now destruct layout. Qed.

Lemma request_relayout_spec (layout : ClutterBoxLayout) :
  snd (request_relayout layout) = [relayout_signal layout]
  /\ layout_priv (fst (request_relayout layout)) = layout_priv layout
  /\ layout_container (fst (request_relayout layout)) = layout_container layout
  /\ easing_mode (fst (request_relayout layout)) = easing_mode layout
  /\ easing_duration (fst (request_relayout layout)) = easing_duration layout
  /\ use_animations (fst (request_relayout layout)) = use_animations layout
  /\ is_animating (fst (request_relayout layout))
     = is_animating layout || use_animations layout.
Proof.
  unfold request_relayout, relayout_signal.
  destruct (use_animations layout) eqn:Hu; cbn; rewrite ?Hu;
    repeat split; try reflexivity.
  - now rewrite orb_true_r.
  - now rewrite orb_false_r.
Qed.

(** A setter called with the value its getter returns, and with
    another value. *)
Lemma run_setter_same (call : setter_call) (layout : ClutterBoxLayout) :
  setter_argument call = read_property (setter_property call) layout ->
  run_setter call layout = (layout, []).
Proof.
  intros Hsame.
  destruct call as [v_vert | v_homog | n_sp | v_pack | v_use | n_mode | n_dur];
    setter_cases layout;
    try (rewrite <- Hsame, Z.eqb_refl; reflexivity);
    apply N2Z.inj in Hsame; subst; now rewrite N.eqb_refl.
Qed.

Lemma run_setter_changed (call : setter_call) (layout : ClutterBoxLayout) :
  setter_argument call <> read_property (setter_property call) layout ->
  snd (run_setter call layout)
  = (if geometry_property (setter_property call) then [relayout_signal layout] else [])
    ++ [notify (setter_property call)]
  /\ is_animating (fst (run_setter call layout))
     = is_animating layout
       || (geometry_property (setter_property call) && use_animations layout).
Proof.
  intros Hdiff.
  destruct call as [v_vert | v_homog | n_sp | v_pack | v_use | n_mode | n_dur];
    setter_cases layout;
    try (destruct (Z.eqb_spec (gboolean_of_bit vert) v_vert); [congruence|]);
    try (destruct (Z.eqb_spec (gboolean_of_bit homog) v_homog); [congruence|]);
    try (destruct (Z.eqb_spec (gboolean_of_bit pack) v_pack); [congruence|]);
    try (destruct (Z.eqb_spec (gboolean_of_bit use) v_use); [congruence|]);
    try (destruct (N.eqb_spec sp n_sp); [subst; congruence|]);
    try (destruct (N.eqb_spec emode n_mode); [subst; congruence|]);
    try (destruct (N.eqb_spec dur n_dur); [subst; congruence|]);
    cbn [negb];
    unfold request_relayout, relayout_signal, clutter_box_layout_begin_animation;
    cbn [use_animations easing_duration easing_mode layout_priv layout_container
         is_animating];
    destruct use; cbn [fst snd app is_animating andb];
    rewrite ?orb_true_r, ?orb_false_r; split; reflexivity.
Qed.

(** X16.  What a setter of the layout sends out.  Called with the value
    its getter returns, a setter changes nothing and sends nothing.
    Called with another value, it notifies its property exactly once;
    for the four properties that decide where the children go, and for
    no other, the notification follows one request for a new layout,
    which is an animation when animations are in use and marks the
    layout as animating. *)
Theorem setter_signals (call : setter_call) (layout : ClutterBoxLayout) :
  let property := setter_property call in
  (setter_argument call = read_property property layout ->
   run_setter call layout = (layout, []))
  /\ (setter_argument call <> read_property property layout ->
      snd (run_setter call layout)
      = (if geometry_property property then [relayout_signal layout] else [])
        ++ [notify property]
      /\ is_animating (fst (run_setter call layout))
         = is_animating layout
           || (geometry_property property && use_animations layout)).
Proof.
  cbv zeta. split; [apply run_setter_same | apply run_setter_changed].
Qed.

(** X17.  Setting, then getting.  After a call of a setter the getter
    of its property returns the value as the setter stores it, and the
    getter of every other property returns what it returned before.
    The value is stored as given when it is a number, or a [gboolean]
    that is 0 or 1. *)
Theorem setter_round_trip (call : setter_call) (layout : ClutterBoxLayout)
        (property : BoxLayoutProperty) :
  read_property property (fst (run_setter call layout))
  = (if property_eqb property (setter_property call)
     then stored_value call
     else read_property property layout)
  /\ (0 <= setter_argument call <= 1 -> stored_value call = setter_argument call).
Proof.
  split.
  - destruct call as [v_vert | v_homog | n_sp | v_pack | v_use | n_mode | n_dur], property;
      setter_cases layout; cbn [property_eqb];
      try (destruct (Z.eqb_spec (gboolean_of_bit vert) v_vert) as [<- | ?]);
      try (destruct (Z.eqb_spec (gboolean_of_bit homog) v_homog) as [<- | ?]);
      try (destruct (Z.eqb_spec (gboolean_of_bit pack) v_pack) as [<- | ?]);
      try (destruct (Z.eqb_spec (gboolean_of_bit use) v_use) as [<- | ?]);
      try (destruct (N.eqb_spec sp n_sp) as [<- | ?]);
      try (destruct (N.eqb_spec emode n_mode) as [<- | ?]);
      try (destruct (N.eqb_spec dur n_dur) as [<- | ?]);
      cbn [negb fst];
      rewrite ?truth_of_bit, ?bit_of_bit;
      try reflexivity;
      unfold request_relayout, clutter_box_layout_begin_animation;
      cbn [use_animations easing_duration easing_mode layout_priv layout_container
           is_animating];
      destruct use; reflexivity.
  - intros Hrange.
    destruct call as [v_vert | v_homog | n_sp | v_pack | v_use | n_mode | n_dur];
      unfold stored_value, setter_argument in *; try reflexivity;
      match goal with
      | H : 0 <= ?v <= 1 |- _ =>
          assert (Hv : v = 0 \/ v = 1) by lia; now destruct Hv as [-> | ->]
      end.
Qed.

(** X18.  A [gboolean] that is even and not 0.  The setters of the
    orientation, of the homogeneous mode and of the pack direction take
    it as true.  The setter of [use-animations] and the setters of the
    fill and expand flags of a child store its lowest bit: they turn
    the flag off, and report a change even when the flag was off. *)
Theorem even_gboolean_turns_flags_off (v : gboolean) (layout : ClutterBoxLayout)
        (self : ClutterBoxChild) :
  Z.even v = true -> v <> 0 ->
  (clutter_box_layout_get_vertical (fst (clutter_box_layout_set_vertical layout v)) = 1
   /\ clutter_box_layout_get_homogeneous
        (fst (clutter_box_layout_set_homogeneous layout v)) = 1
   /\ clutter_box_layout_get_pack_start
        (fst (clutter_box_layout_set_pack_start layout v)) = 1)
  /\ clutter_box_layout_set_use_animations layout v
     = (mkLayout (layout_priv layout) (layout_container layout) (easing_mode layout)
                 (easing_duration layout) (is_animating layout) false,
        [notify PROP_USE_ANIMATIONS])
  /\ (let '(_, self', signals) := box_child_set_expand layout self v in
      expand self' = false /\ In (child_notify PROP_CHILD_EXPAND) signals)
  /\ (let '(_, self', signals) := box_child_set_fill layout self v v in
      x_fill self' = false /\ y_fill self' = false
      /\ In (child_notify PROP_CHILD_X_FILL) signals
      /\ In (child_notify PROP_CHILD_Y_FILL) signals).
Proof.
  intros Heven Hnz.
  assert (Hodd : bit_of_gboolean v = false)
    by (unfold bit_of_gboolean; rewrite <- Z.negb_even, Heven; reflexivity).
  assert (Htrue : truth_of_gboolean v = true)
    by (unfold truth_of_gboolean; destruct (Z.eqb_spec v 0); [contradiction | reflexivity]).
  assert (Hbit : forall b, (gboolean_of_bit b =? v) = false).
  { intros b. apply Z.eqb_neq. intros <-. destruct b; cbn in *; [discriminate | lia]. }
  split; [|split; [|split]].
  - destruct layout as [[sp vert pack homog] cont emode dur anim use].
    unfold clutter_box_layout_get_vertical, clutter_box_layout_set_vertical,
      clutter_box_layout_get_homogeneous, clutter_box_layout_set_homogeneous,
      clutter_box_layout_get_pack_start, clutter_box_layout_set_pack_start,
      request_relayout, clutter_box_layout_begin_animation, with_priv.
    cbn [layout_priv layout_container easing_mode easing_duration is_animating
         use_animations spacing is_vertical is_pack_start is_homogeneous].
    rewrite !Hbit, Htrue. cbn [negb].
    destruct use; cbn [fst layout_priv is_vertical is_homogeneous is_pack_start];
      repeat split; reflexivity.
  - unfold clutter_box_layout_set_use_animations. now rewrite Hbit, Hodd.
  - unfold box_child_set_expand. rewrite Hbit. cbn [negb].
    destruct (request_relayout layout) as [layout' signals].
    rewrite Hodd. split; [reflexivity|]. apply in_or_app. right. now left.
  - unfold box_child_set_fill. rewrite !Hbit. cbn [negb orb].
    destruct (request_relayout layout) as [layout' signals].
    rewrite Hodd. cbn [x_fill y_fill]. split; [reflexivity|]. split; [reflexivity|].
    split; apply in_or_app; right; cbn; auto.
Qed.

(** ** The properties of a child *)

Lemma alignment_eqb_eq (a b : ClutterBoxAlignment) :
  alignment_eqb a b = true <-> a = b.
Proof. destruct a, b; cbn; split; congruence. Qed.

Lemma stored_bit (b : bool) (v : gboolean) :
  (if negb (gboolean_of_bit b =? v) then bit_of_gboolean v else b)
  = bit_of_gboolean v.
Proof.
  destruct (Z.eqb_spec (gboolean_of_bit b) v) as [<- | _]; cbn [negb];
    [now rewrite bit_of_bit | reflexivity].
Qed.

Lemma stored_alignment (a b : ClutterBoxAlignment) :
  (if negb (alignment_eqb a b) then b else a) = b.
Proof.
  destruct (alignment_eqb a b) eqn:E; cbn [negb]; [|reflexivity].
  now apply alignment_eqb_eq.
Qed.

Lemma relayout_signal_is_relayout (layout : ClutterBoxLayout) :
  is_relayout (relayout_signal layout) = true.
Proof. unfold relayout_signal. now destruct (use_animations layout). Qed.

Lemma request_relayout_signals (layout : ClutterBoxLayout) :
  snd (request_relayout layout) = [relayout_signal layout].
Proof. apply request_relayout_spec. Qed.

Lemma request_relayout_container (layout : ClutterBoxLayout) :
  layout_container (fst (request_relayout layout)) = layout_container layout.
Proof. apply request_relayout_spec. Qed.

(** What each of the three setters of a child leaves behind: the meta
    holds the values given, the flags by their lowest bit; one request
    for a new layout is sent when something changes, whether one
    property changes or two, and nothing is sent otherwise. *)
Lemma box_child_set_align_spec (layout : ClutterBoxLayout) (self : ClutterBoxChild)
      (x y : ClutterBoxAlignment) :
  let r := box_child_set_align layout self x y in
  snd (fst r) = mkBoxChild x y (x_fill self) (y_fill self) (expand self)
  /\ (length (filter is_relayout (snd r)) <= 1)%nat
  /\ layout_container (fst (fst r)) = layout_container layout
  /\ (snd (fst r) = self -> r = (layout, self, [])).
Proof.
  cbv zeta. unfold box_child_set_align. rewrite !stored_alignment.
  pose proof (request_relayout_signals layout) as Hs.
  pose proof (request_relayout_container layout) as Hc.
  pose proof (relayout_signal_is_relayout layout) as Hr.
  destruct (request_relayout layout) as [layout' signals]. cbn [fst snd] in *.
  subst signals.
  destruct self as [xa ya xf yf ex]. cbn [x_align y_align x_fill y_fill expand].
  destruct (alignment_eqb xa x) eqn:Ex, (alignment_eqb ya y) eqn:Ey; cbn [negb orb];
    try apply alignment_eqb_eq in Ex; try apply alignment_eqb_eq in Ey; subst;
    cbn [fst snd app filter is_relayout length]; rewrite ?Hr; cbn [length];
    (split; [reflexivity|]); (split; [lia|]); (split; [assumption || reflexivity|]);
    intros H; try reflexivity; injection H as; subst;
    rewrite (proj2 (alignment_eqb_eq _ _) eq_refl) in *; discriminate.
Qed.

Lemma box_child_set_fill_spec (layout : ClutterBoxLayout) (self : ClutterBoxChild)
      (x y : gboolean) :
  let r := box_child_set_fill layout self x y in
  snd (fst r) = mkBoxChild (x_align self) (y_align self)
                           (bit_of_gboolean x) (bit_of_gboolean y) (expand self)
  /\ (length (filter is_relayout (snd r)) <= 1)%nat
  /\ layout_container (fst (fst r)) = layout_container layout
  /\ (x = gboolean_of_bit (x_fill self) -> y = gboolean_of_bit (y_fill self) ->
      r = (layout, self, [])).
Proof.
  cbv zeta. unfold box_child_set_fill. rewrite !stored_bit.
  pose proof (request_relayout_signals layout) as Hs.
  pose proof (request_relayout_container layout) as Hc.
  pose proof (relayout_signal_is_relayout layout) as Hr.
  destruct (request_relayout layout) as [layout' signals]. cbn [fst snd] in *.
  subst signals.
  destruct self as [xa ya xf yf ex]. cbn [x_align y_align x_fill y_fill expand].
  destruct (Z.eqb_spec (gboolean_of_bit xf) x) as [Hx | Hx],
           (Z.eqb_spec (gboolean_of_bit yf) y) as [Hy | Hy]; cbn [negb orb];
    cbn [fst snd app filter is_relayout length]; rewrite ?Hr; cbn [length];
    (split; [reflexivity|]); (split; [lia|]); (split; [assumption || reflexivity|]);
    intros Hx' Hy'; try congruence.
  subst x y. now rewrite !bit_of_bit.
Qed.

Lemma box_child_set_expand_spec (layout : ClutterBoxLayout) (self : ClutterBoxChild)
      (v : gboolean) :
  let r := box_child_set_expand layout self v in
  snd (fst r) = mkBoxChild (x_align self) (y_align self) (x_fill self) (y_fill self)
                           (bit_of_gboolean v)
  /\ (length (filter is_relayout (snd r)) <= 1)%nat
  /\ layout_container (fst (fst r)) = layout_container layout
  /\ (v = gboolean_of_bit (expand self) -> r = (layout, self, [])).
Proof.
  cbv zeta. unfold box_child_set_expand.
  pose proof (request_relayout_signals layout) as Hs.
  pose proof (request_relayout_container layout) as Hc.
  pose proof (relayout_signal_is_relayout layout) as Hr.
  destruct (request_relayout layout) as [layout' signals]. cbn [fst snd] in *.
  subst signals.
  destruct self as [xa ya xf yf ex]. cbn [x_align y_align x_fill y_fill expand].
  destruct (Z.eqb_spec (gboolean_of_bit ex) v) as [Hv | Hv]; cbn [negb];
    cbn [fst snd app filter is_relayout length]; rewrite ?Hr; cbn [length];
    (split; [try reflexivity|]); try (split; [lia|]);
    try (split; [assumption || reflexivity|]); try (intros Hv'; congruence);
    try (subst v; now rewrite bit_of_bit).
Qed.

(** X19.  Packing.  Without a container [clutter_box_layout_pack] only
    warns.  With one it leaves in the layout meta of the actor exactly
    the five properties it is given, the flags by their lowest bit,
    whatever the meta held; it asks for a new layout at most three
    times, once for each group of properties that changes, and not at
    all when the meta already held these properties. *)
Theorem pack_stores_the_properties (layout : ClutterBoxLayout) (meta : ClutterBoxChild)
        (expand' x_fill' y_fill' : gboolean) (x_align' y_align' : ClutterBoxAlignment) :
  let r := clutter_box_layout_pack layout meta expand' x_fill' y_fill'
                                   x_align' y_align' in
  (layout_container layout = None -> r = (layout, None, [warning_no_container]))
  /\ (layout_container layout <> None ->
      snd (fst r) = Some (mkBoxChild x_align' y_align' (bit_of_gboolean x_fill')
                                     (bit_of_gboolean y_fill')
                                     (bit_of_gboolean expand'))
      /\ (length (filter is_relayout (snd r)) <= 3)%nat
      /\ (meta = mkBoxChild x_align' y_align' (bit_of_gboolean x_fill')
                            (bit_of_gboolean y_fill') (bit_of_gboolean expand') ->
          0 <= x_fill' <= 1 -> 0 <= y_fill' <= 1 -> 0 <= expand' <= 1 ->
          r = (layout, Some meta, []))).
Proof.
  cbv zeta. unfold clutter_box_layout_pack. split.
  - now intros ->.
  - intros Hc. destruct (layout_container layout) as [c|] eqn:Ec; [clear Hc|congruence].
    pose proof (box_child_set_align_spec layout meta x_align' y_align') as Ha.
    destruct (box_child_set_align layout meta x_align' y_align')
      as [[layout1 self1] s1]. cbn [fst snd] in Ha.
    destruct Ha as (Hm1 & Hn1 & _ & Hsame1).
    pose proof (box_child_set_fill_spec layout1 self1 x_fill' y_fill') as Hf.
    destruct (box_child_set_fill layout1 self1 x_fill' y_fill')
      as [[layout2 self2] s2]. cbn [fst snd] in Hf.
    destruct Hf as (Hm2 & Hn2 & _ & Hsame2).
    pose proof (box_child_set_expand_spec layout2 self2 expand') as He.
    destruct (box_child_set_expand layout2 self2 expand')
      as [[layout3 self3] s3]. cbn [fst snd] in He.
    destruct He as (Hm3 & Hn3 & _ & Hsame3).
    cbn [fst snd]. split; [|split].
    + rewrite Hm3, Hm2, Hm1. reflexivity.
    + rewrite !filter_app, !length_app. lia.
    + intros Hmeta Hx Hy He.
      assert (Hbit : forall v, 0 <= v <= 1 ->
                gboolean_of_bit (bit_of_gboolean v) = v).
      { intros v Hv. assert (H : v = 0 \/ v = 1) by lia. now destruct H as [-> | ->]. }
      assert (E1 : (layout1, self1, s1) = (layout, meta, [])).
      { apply Hsame1. rewrite Hm1, Hmeta. reflexivity. }
      clear Hm1 Hm2 Hm3 Hn1 Hn2 Hn3 Hsame1.
      injection E1 as El Es Esig. subst layout1 self1 s1.
      assert (E2 : (layout2, self2, s2) = (layout, meta, [])).
      { apply Hsame2; rewrite Hmeta; cbn [x_fill y_fill]; symmetry; now apply Hbit. }
      injection E2 as El Es Esig. subst layout2 self2 s2.
      assert (E3 : (layout3, self3, s3) = (layout, meta, [])).
      { apply Hsame3. rewrite Hmeta. cbn [expand]. symmetry. now apply Hbit. }
      injection E3 as El Es Esig. subst layout3 self3 s3. reflexivity.
Qed.

(** X20.  The properties of a child through the public interface.
    Without a container, or for an actor that has no layout meta, the
    six functions only warn: the setters leave the layout and the meta
    as they are, the getters return nothing, [get_expand] FALSE.
    Otherwise a getter called after its setter returns the alignments
    as given and the flags by their lowest bit. *)
Theorem child_property_interface (layout : ClutterBoxLayout)
        (meta : option ClutterBoxChild) (expand' x_fill' y_fill' : gboolean)
        (x_align' y_align' : ClutterBoxAlignment) :
  (layout_container layout = None \/ meta = None ->
   exists w,
     (w = warning_no_container \/ w = warning_no_meta)
     /\ clutter_box_layout_set_alignment layout meta x_align' y_align'
        = (layout, meta, [w])
     /\ clutter_box_layout_set_fill layout meta x_fill' y_fill' = (layout, meta, [w])
     /\ clutter_box_layout_set_expand layout meta expand' = (layout, meta, [w])
     /\ clutter_box_layout_get_alignment layout meta = (None, [w])
     /\ clutter_box_layout_get_fill layout meta = (None, [w])
     /\ clutter_box_layout_get_expand layout meta = (0, [w]))
  /\ (layout_container layout <> None -> meta <> None ->
      (let '(layout', meta', _) :=
         clutter_box_layout_set_alignment layout meta x_align' y_align' in
       clutter_box_layout_get_alignment layout' meta'
       = (Some (x_align', y_align'), []))
      /\ (let '(layout', meta', _) :=
            clutter_box_layout_set_fill layout meta x_fill' y_fill' in
          clutter_box_layout_get_fill layout' meta'
          = (Some (gboolean_of_bit (bit_of_gboolean x_fill'),
                   gboolean_of_bit (bit_of_gboolean y_fill')), []))
      /\ (let '(layout', meta', _) :=
            clutter_box_layout_set_expand layout meta expand' in
          clutter_box_layout_get_expand layout' meta'
          = (gboolean_of_bit (bit_of_gboolean expand'), []))).
Proof.
  unfold clutter_box_layout_set_alignment, clutter_box_layout_set_fill,
    clutter_box_layout_set_expand, clutter_box_layout_get_alignment,
    clutter_box_layout_get_fill, clutter_box_layout_get_expand.
  split.
  - intros Hguard. destruct (layout_container layout) as [c|].
    + destruct Hguard as [? | ->]; [discriminate|].
      exists warning_no_meta. repeat split. now right.
    + exists warning_no_container. repeat split. now left.
  - intros Hc Hm. destruct (layout_container layout) as [c|] eqn:Ec; [|congruence].
    destruct meta as [self|]; [|congruence].
    split; [|split].
    + pose proof (box_child_set_align_spec layout self x_align' y_align') as H.
      destruct (box_child_set_align layout self x_align' y_align')
        as [[layout' self'] signals]. cbn [fst snd] in H.
      destruct H as (-> & _ & -> & _). now rewrite Ec.
    + pose proof (box_child_set_fill_spec layout self x_fill' y_fill') as H.
      destruct (box_child_set_fill layout self x_fill' y_fill')
        as [[layout' self'] signals]. cbn [fst snd] in H.
      destruct H as (-> & _ & -> & _). now rewrite Ec.
    + pose proof (box_child_set_expand_spec layout self expand') as H.
      destruct (box_child_set_expand layout self expand')
        as [[layout' self'] signals]. cbn [fst snd] in H.
      destruct H as (-> & _ & -> & _). now rewrite Ec.
Qed.

(** ** Allocating a child, with and without a transition *)

Section ChildAllocation.

Variable clutter_actor_allocate_align_fill :
  ClutterActor -> ClutterActorBox -> Q -> Q -> bool -> bool -> ClutterActorBox.
Variable clutter_actor_box_interpolate :
  ClutterActorBox -> ClutterActorBox -> Q -> ClutterActorBox.

Lemma allocate_box_child_settled (layout : ClutterBoxLayout) (progress : Q)
      (child : ClutterActor) (cache : allocation_cache) (child_box : ClutterActorBox) :
  in_transition layout = false ->
  allocate_box_child clutter_actor_allocate_align_fill clutter_actor_box_interpolate
    layout progress child cache child_box
  = (mkCache (aligned_box clutter_actor_allocate_align_fill child child_box) true, aligned_box clutter_actor_allocate_align_fill child child_box).
Proof.
  unfold in_transition, allocate_box_child, aligned_box. now intros ->.
Qed.

Lemma allocate_box_child_moving (layout : ClutterBoxLayout) (progress : Q)
      (child : ClutterActor) (cache : allocation_cache) (child_box : ClutterActorBox) :
  in_transition layout = true -> has_last_allocation cache = true ->
  allocate_box_child clutter_actor_allocate_align_fill clutter_actor_box_interpolate
    layout progress child cache child_box
  = (cache,
     clutter_actor_box_interpolate (last_allocation cache)
                                   (aligned_box clutter_actor_allocate_align_fill child child_box) progress).
Proof.
  unfold in_transition, allocate_box_child, aligned_box. now intros -> ->.
Qed.

Lemma allocate_box_child_new (layout : ClutterBoxLayout) (progress : Q)
      (child : ClutterActor) (cache : allocation_cache) (child_box : ClutterActorBox) :
  in_transition layout = true -> has_last_allocation cache = false ->
  allocate_box_child clutter_actor_allocate_align_fill clutter_actor_box_interpolate
    layout progress child cache child_box
  = (mkCache (aligned_box clutter_actor_allocate_align_fill child child_box) true, aligned_box clutter_actor_allocate_align_fill child child_box).
Proof.
  unfold in_transition, allocate_box_child, aligned_box. now intros -> ->.
Qed.

Lemma allocate_repeatedly_moving (layout : ClutterBoxLayout) (child : ClutterActor)
      (cache : allocation_cache) (passes : list (Q * ClutterActorBox)) :
  in_transition layout = true -> has_last_allocation cache = true ->
  allocate_box_child_repeatedly clutter_actor_allocate_align_fill
     clutter_actor_box_interpolate layout child cache passes
  = (cache,
     map (fun pass => clutter_actor_box_interpolate
                        (last_allocation cache) (aligned_box clutter_actor_allocate_align_fill child (snd pass)) (fst pass))
         passes).
Proof.
  intros Ht Hc. induction passes as [|[progress child_box] rest IH]; [reflexivity|].
  cbn [allocate_box_child_repeatedly map fst snd].
  rewrite allocate_box_child_moving by assumption. now rewrite IH.
Qed.

(** X21.  Transitions start from the stored allocation and leave it
    alone.  Over any number of allocations of a child while the layout
    is animating, a child with a stored allocation is given rectangles
    interpolated between that stored allocation and the ones computed,
    and the stored allocation stays as it was; a child without one is
    given the computed rectangle the first time, which is stored and is
    the start of what follows.  When the layout is not animating, the
    child is given each computed rectangle as it is and the last of
    them is stored. *)
Theorem transition_keeps_the_start (layout : ClutterBoxLayout) (child : ClutterActor)
        (cache : allocation_cache) (passes : list (Q * ClutterActorBox)) :
  (in_transition layout = true -> has_last_allocation cache = true ->
   allocate_box_child_repeatedly clutter_actor_allocate_align_fill
     clutter_actor_box_interpolate layout child cache passes
   = (cache,
      map (fun pass => clutter_actor_box_interpolate
                         (last_allocation cache) (aligned_box clutter_actor_allocate_align_fill child (snd pass)) (fst pass))
          passes))
  /\ (in_transition layout = true -> has_last_allocation cache = false ->
      forall progress child_box,
      allocate_box_child_repeatedly clutter_actor_allocate_align_fill
     clutter_actor_box_interpolate layout child cache ((progress, child_box) :: passes)
      = (mkCache (aligned_box clutter_actor_allocate_align_fill child child_box) true,
         aligned_box clutter_actor_allocate_align_fill child child_box
           :: map (fun pass => clutter_actor_box_interpolate
                                 (aligned_box clutter_actor_allocate_align_fill child child_box)
                                 (aligned_box clutter_actor_allocate_align_fill child (snd pass)) (fst pass))
                  passes))
  /\ (in_transition layout = false ->
      allocate_box_child_repeatedly clutter_actor_allocate_align_fill
     clutter_actor_box_interpolate layout child cache passes
      = (match rev passes with
         | [] => cache
         | pass :: _ => mkCache (aligned_box clutter_actor_allocate_align_fill child (snd pass)) true
         end,
         map (fun pass => aligned_box clutter_actor_allocate_align_fill child (snd pass)) passes)).
Proof.
  split; [|split].
  - now apply allocate_repeatedly_moving.
  - intros Ht Hc progress child_box.
    cbn [allocate_box_child_repeatedly].
    rewrite allocate_box_child_new by assumption.
    now rewrite allocate_repeatedly_moving.
  - intros Ht. revert cache.
    induction passes as [|[progress child_box] rest IH]; intros cache; [reflexivity|].
    cbn [allocate_box_child_repeatedly map fst snd rev].
    rewrite allocate_box_child_settled by assumption. rewrite IH.
    f_equal. destruct (rev rest) as [|pass tl]; reflexivity.
Qed.


(** A slot of a list replaced. *)
Lemma replaced_length {A : Type} (l : list A) (i : nat) (x : A) :
  (i < length l)%nat -> length (firstn i l ++ x :: skipn (S i) l) = length l.
Proof.
  intros H. rewrite length_app, length_firstn. cbn [length].
  rewrite length_skipn. lia.
Qed.

Lemma replaced_same {A : Type} (l : list A) (i : nat) (x : A) :
  (i < length l)%nat -> nth_error (firstn i l ++ x :: skipn (S i) l) i = Some x.
Proof.
  intros H. rewrite nth_error_app2 by (rewrite length_firstn; lia).
  rewrite length_firstn. replace (i - Nat.min i (length l))%nat with O by lia.
  reflexivity.
Qed.

Lemma replaced_other {A : Type} (l : list A) (i j : nat) (x : A) :
  (i < length l)%nat -> j <> i ->
  nth_error (firstn i l ++ x :: skipn (S i) l) j = nth_error l j.
Proof.
  intros H Hne. destruct (Nat.lt_ge_cases j i) as [Hj | Hj].
  - rewrite nth_error_app1 by (rewrite length_firstn; lia).
    rewrite nth_error_firstn.
    destruct (Nat.ltb_spec j i); [reflexivity | lia].
  - rewrite nth_error_app2 by (rewrite length_firstn; lia).
    rewrite length_firstn. replace (Nat.min i (length l)) with i by lia.
    destruct (j - i)%nat as [|k] eqn:Ek; [lia|]. cbn [nth_error].
    rewrite nth_error_skipn. f_equal. lia.
Qed.

(** The calls of a pass in which no position occurs twice: each call
    works on the cache its child had before the pass, and leaves at
    that position what [allocate_box_child] returns. *)
Lemma allocate_box_children_spec (layout : ClutterBoxLayout) (progress : Q)
      (children : list ClutterActor) (calls : list allocation) :
  forall caches : list allocation_cache,
  NoDup (map alloc_index calls) ->
  (forall a, In a calls -> (alloc_index a < length children)%nat) ->
  length caches = length children ->
  let r := allocate_box_children clutter_actor_allocate_align_fill
             clutter_actor_box_interpolate layout progress children caches calls in
  length (fst r) = length caches
  /\ (forall i, ~ In i (map alloc_index calls) ->
      nth_error (fst r) i = nth_error caches i)
  /\ forall k a, nth_error calls k = Some a ->
       exists child cache,
         nth_error children (alloc_index a) = Some child
         /\ nth_error caches (alloc_index a) = Some cache
         /\ nth_error (snd r) k
            = Some (alloc_index a,
                    snd (allocate_box_child clutter_actor_allocate_align_fill
                           clutter_actor_box_interpolate layout progress child cache
                           (alloc_box a)))
         /\ nth_error (fst r) (alloc_index a)
            = Some (fst (allocate_box_child clutter_actor_allocate_align_fill
                           clutter_actor_box_interpolate layout progress child cache
                           (alloc_box a))).
Proof.
  induction calls as [|a rest IH]; intros caches Hnd Hrange Hlen; cbv zeta.
  - cbn [allocate_box_children fst snd]. repeat split.
    intros [|k] b Hk; discriminate.
  - cbn [map] in Hnd. inversion Hnd as [|? ? Hnotin Hnd']; subst.
    assert (Hi : (alloc_index a < length children)%nat) by (apply Hrange; now left).
    destruct (nth_error children (alloc_index a)) as [child|] eqn:Echild;
      [|apply nth_error_None in Echild; lia].
    destruct (nth_error caches (alloc_index a)) as [cache|] eqn:Ecache;
      [|apply nth_error_None in Ecache; lia].
    cbn [allocate_box_children]. rewrite Echild, Ecache.
    destruct (allocate_box_child clutter_actor_allocate_align_fill
                clutter_actor_box_interpolate layout progress child cache (alloc_box a))
      as [cache' final_box] eqn:Ecall.
    set (caches1 := firstn (alloc_index a) caches ++ cache'
                      :: skipn (S (alloc_index a)) caches).
    assert (Hlen1 : length caches1 = length caches)
      by (apply replaced_length; lia).
    specialize (IH caches1 Hnd' (fun b Hb => Hrange b (or_intror Hb))
                   ltac:(lia)).
    cbv zeta in IH.
    destruct (allocate_box_children clutter_actor_allocate_align_fill
                clutter_actor_box_interpolate layout progress children caches1 rest)
      as [caches' allocated].
    cbn [fst snd] in *. destruct IH as (Hl & Hout & Hcalls).
    split; [lia|]. split.
    + intros i Hnot. rewrite Hout by (intros H; apply Hnot; now right).
      apply replaced_other; [lia|]. intros ->. apply Hnot. now left.
    + intros [|k] b Hk; cbn [nth_error] in Hk |- *.
      * injection Hk as <-. exists child, cache. rewrite Ecall. cbn [fst snd].
        repeat split; try assumption.
        rewrite Hout by assumption. apply replaced_same. lia.
      * destruct (Hcalls k b Hk) as (child_b & cache_b & H1 & H2 & H3 & H4).
        exists child_b, cache_b. repeat split; try assumption.
        rewrite <- H2. symmetry. apply replaced_other; [lia|].
        intros E. apply Hnotin. rewrite <- E.
        apply in_map. eapply nth_error_In; eassumption.
Qed.

End ChildAllocation.

(** The positions of the visible children, each once. *)
Lemma visible_positions_from_In (l : list ClutterActor) :
  forall pos i,
  In i (visible_positions_from pos l)
  <-> (pos <= i)%nat
      /\ exists c, nth_error l (i - pos) = Some c /\ visible c = true.
Proof.
  induction l as [|c l IH]; intros pos i; cbn [visible_positions_from].
  - split; [contradiction|]. intros (_ & d & Hd & _).
    destruct (i - pos)%nat; discriminate.
  - assert (Htail : In i (visible_positions_from (S pos) l)
                    <-> (pos < i)%nat
                        /\ exists d, nth_error (c :: l) (i - pos) = Some d
                                     /\ visible d = true).
    { rewrite IH. split.
      - intros (Hle & d & Hd & Hv). split; [lia|]. exists d. split; [|assumption].
        replace (i - pos)%nat with (S (i - S pos)) by lia. exact Hd.
      - intros (Hlt & d & Hd & Hv). split; [lia|]. exists d. split; [|assumption].
        replace (i - pos)%nat with (S (i - S pos)) in Hd by lia. exact Hd. }
    destruct (visible c) eqn:Hc.
    + cbn [In]. rewrite Htail. split.
      * intros [<- | (Hlt & H)].
        -- split; [lia|]. exists c. rewrite Nat.sub_diag. now split.
        -- split; [lia | assumption].
      * intros (Hle & d & Hd & Hv).
        destruct (Nat.eq_dec pos i) as [-> | Hne]; [now left|].
        right. split; [lia|]. now exists d.
    + rewrite Htail. split.
      * intros (Hlt & H). split; [lia | assumption].
      * intros (Hle & d & Hd & Hv).
        destruct (Nat.eq_dec pos i) as [-> | Hne].
        -- rewrite Nat.sub_diag in Hd. cbn in Hd. injection Hd as <-. congruence.
        -- split; [lia|]. now exists d.
Qed.

Lemma visible_positions_from_NoDup (l : list ClutterActor) :
  forall pos, NoDup (visible_positions_from pos l).
Proof.
  induction l as [|c l IH]; intros pos; cbn [visible_positions_from]; [constructor|].
  destruct (visible c); [|apply IH].
  constructor; [|apply IH].
  rewrite visible_positions_from_In. lia.
Qed.

Section PassOutcome.

Variable priv : ClutterBoxLayoutPrivate.
Variable container : ClutterContainer.
Variable box : ClutterActorBox.
Variable stray : nat -> ClutterRequestedSize.

(** A pass that is not stopped makes its calls for the visible
    children, last one first. *)
Lemma allocate_indices (calls : list allocation) :
  clutter_box_layout_allocate priv container box stray = inr calls ->
  map alloc_index calls = rev (visible_positions (children container)).
Proof.
  intros Hrun.
  assert (Hcases : filter visible (children container) = []
                   \/ filter visible (children container) <> [])
    by (destruct (filter visible (children container)); [now left | now right]).
  destruct Hcases as [Evis | Hne].
  - rewrite allocate_no_visible in Hrun by assumption. injection Hrun as <-.
    unfold visible_positions. now rewrite visible_positions_none.
  - destruct (forallb request_accepted
                (visible_requests priv box (children container))) eqn:Hok.
    + rewrite allocate_accepted in Hrun by assumption.
      destruct (share_out _ _ _ _ _ _) as [[extra n_extra] sizes].
      injection Hrun as <-. apply allocate_loop_indices.
    + destruct (allocate_rejected priv container box stray Hne Hok) as [err Herr].
      congruence.
Qed.

End PassOutcome.

Section PassCaches.

Variable clutter_actor_allocate_align_fill :
  ClutterActor -> ClutterActorBox -> Q -> Q -> bool -> bool -> ClutterActorBox.
Variable clutter_actor_box_interpolate :
  ClutterActorBox -> ClutterActorBox -> Q -> ClutterActorBox.

(** X22.  One pass over the caches.  When the caches of the children
    go through the calls of [allocate_box_child] of an allocation pass
    that is not stopped, every visible child is allocated once, on the
    cache it had before the pass, and its cache holds afterwards what
    that one call left; the cache of a hidden child is not touched. *)
Theorem allocate_pass_updates_each_cache_once (layout : ClutterBoxLayout)
        (progress : Q) (container : ClutterContainer) (box : ClutterActorBox)
        (stray : nat -> ClutterRequestedSize) (caches : list allocation_cache)
        (calls : list allocation) :
  length caches = length (children container) ->
  clutter_box_layout_allocate (layout_priv layout) container box stray = inr calls ->
  let r := allocate_box_children clutter_actor_allocate_align_fill
             clutter_actor_box_interpolate layout progress (children container)
             caches calls in
  map alloc_index calls = rev (visible_positions (children container))
  /\ length (fst r) = length caches
  /\ (forall i child, nth_error (children container) i = Some child ->
                      visible child = false ->
                      nth_error (fst r) i = nth_error caches i)
  /\ (forall k a, nth_error calls k = Some a ->
       exists child cache,
         nth_error (children container) (alloc_index a) = Some child
         /\ visible child = true
         /\ nth_error caches (alloc_index a) = Some cache
         /\ nth_error (snd r) k
            = Some (alloc_index a,
                    snd (allocate_box_child clutter_actor_allocate_align_fill
                           clutter_actor_box_interpolate layout progress child cache
                           (alloc_box a)))
         /\ nth_error (fst r) (alloc_index a)
            = Some (fst (allocate_box_child clutter_actor_allocate_align_fill
                           clutter_actor_box_interpolate layout progress child cache
                           (alloc_box a)))).
Proof.
  intros Hlen Hrun. cbv zeta.
  pose proof (allocate_indices _ _ _ _ _ Hrun) as Hidx.
  assert (Hpos : forall i, In i (map alloc_index calls) ->
            exists c, nth_error (children container) i = Some c /\ visible c = true).
  { intros i Hi. rewrite Hidx, <- in_rev in Hi.
    apply visible_positions_from_In in Hi. destruct Hi as (_ & c & Hc & Hv).
    rewrite Nat.sub_0_r in Hc. now exists c. }
  destruct (allocate_box_children_spec clutter_actor_allocate_align_fill
              clutter_actor_box_interpolate layout progress (children container)
              calls caches) as (Hl & Hout & Hcalls).
  - rewrite Hidx. apply NoDup_rev, visible_positions_from_NoDup.
  - intros a Ha. destruct (Hpos (alloc_index a)) as (c & Hc & _);
      [now apply in_map|].
    apply nth_error_Some. congruence.
  - assumption.
  - split; [assumption|]. split; [assumption|]. split.
    + intros i child Hchild Hhidden. apply Hout. intros Hi.
      destruct (Hpos i Hi) as (c & Hc & Hv). congruence.
    + intros k a Hk.
      destruct (Hcalls k a Hk) as (child & cache & H1 & H2 & H3 & H4).
      exists child, cache. repeat split; try assumption.
      destruct (Hpos (alloc_index a)) as (c & Hc & Hv).
      * apply in_map. eapply nth_error_In; eassumption.
      * congruence.
Qed.

End PassCaches.

(** ** The animation switch and the request mode *)

Lemma run_setter_transition (call : setter_call) (layout : ClutterBoxLayout) :
  use_animations layout = true ->
  geometry_property (setter_property call) = true ->
  setter_argument call <> read_property (setter_property call) layout ->
  in_transition (fst (run_setter call layout)) = true.
Proof.
  intros Huse Hgeo Hdiff. unfold in_transition.
  destruct call as [v_vert | v_homog | n_sp | v_pack | v_use | n_mode | n_dur];
    try discriminate;
    destruct layout as [[sp vert pack homog] cont emode dur anim use];
    unfold run_setter, setter_property, setter_argument, read_property,
      clutter_box_layout_set_vertical, clutter_box_layout_set_homogeneous,
      clutter_box_layout_set_spacing, clutter_box_layout_set_pack_start,
      clutter_box_layout_get_vertical, clutter_box_layout_get_homogeneous,
      clutter_box_layout_get_spacing, clutter_box_layout_get_pack_start,
      request_relayout, clutter_box_layout_begin_animation, with_priv in *;
    cbn [layout_priv layout_container easing_mode easing_duration is_animating
         use_animations spacing is_vertical is_pack_start is_homogeneous] in *;
    subst use.
  - destruct (Z.eqb_spec (gboolean_of_bit vert) v_vert); [congruence | reflexivity].
  - destruct (Z.eqb_spec (gboolean_of_bit homog) v_homog); [congruence | reflexivity].
  - destruct (N.eqb_spec sp n_sp); [subst; congruence | reflexivity].
  - destruct (Z.eqb_spec (gboolean_of_bit pack) v_pack); [congruence | reflexivity].
Qed.

(** X23.  From a change of geometry to the end of the animation.  With
    animations in use, a change of one of the four geometry properties
    starts a transition: a child with a stored allocation is then
    allocated a rectangle interpolated from the stored one, which is
    kept; once [clutter_box_layout_end_animation] has run, the child is
    allocated the computed rectangle, which replaces the stored one. *)
Theorem geometry_change_starts_transition
        (clutter_actor_allocate_align_fill :
           ClutterActor -> ClutterActorBox -> Q -> Q -> bool -> bool -> ClutterActorBox)
        (clutter_actor_box_interpolate :
           ClutterActorBox -> ClutterActorBox -> Q -> ClutterActorBox)
        (call : setter_call) (layout : ClutterBoxLayout) (progress : Q)
        (child : ClutterActor) (cache : allocation_cache) (child_box : ClutterActorBox) :
  use_animations layout = true ->
  geometry_property (setter_property call) = true ->
  setter_argument call <> read_property (setter_property call) layout ->
  has_last_allocation cache = true ->
  let moving := fst (run_setter call layout) in
  let settled := fst (clutter_box_layout_end_animation moving) in
  let computed := aligned_box clutter_actor_allocate_align_fill child child_box in
  allocate_box_child clutter_actor_allocate_align_fill clutter_actor_box_interpolate
                     moving progress child cache child_box
  = (cache, clutter_actor_box_interpolate (last_allocation cache) computed progress)
  /\ allocate_box_child clutter_actor_allocate_align_fill clutter_actor_box_interpolate
                        settled progress child cache child_box
     = (mkCache computed true, computed).
Proof.
  intros Huse Hgeo Hdiff Hcache. cbv zeta. split.
  - apply allocate_box_child_moving; [|assumption].
    now apply run_setter_transition.
  - apply allocate_box_child_settled.
    unfold in_transition, clutter_box_layout_end_animation. cbn [fst is_animating].
    apply andb_false_r.
Qed.

(** X24.  The request mode of the container is set to match the
    orientation when the layout is given its container, and by nothing
    else: none of the seven setters sends it, so that a layout whose
    orientation is changed afterwards no longer matches the request
    mode its container was given. *)
Theorem request_mode_set_with_container_only (layout : ClutterBoxLayout)
        (container : nat) :
  (forall call l, filter is_request_mode (snd (run_setter call l)) = [])
  /\ forall vertical : gboolean,
     0 <= vertical <= 1 ->
     vertical <> clutter_box_layout_get_vertical layout ->
     let '(attached, s1) := clutter_box_layout_set_container layout (Some container) in
     let '(turned, s2) := clutter_box_layout_set_vertical attached vertical in
     filter is_request_mode (s1 ++ s2)
     = [set_request_mode (matching_request_mode layout)]
     /\ matching_request_mode turned <> matching_request_mode layout.
Proof.
  split.
  - intros call l.
    destruct (Z.eq_dec (setter_argument call) (read_property (setter_property call) l))
      as [Hsame | Hdiff].
    + now rewrite run_setter_same.
    + rewrite (proj1 (run_setter_changed call l Hdiff)).
      rewrite filter_app. cbn [filter is_request_mode app].
      destruct (geometry_property (setter_property call)); [|reflexivity].
      unfold relayout_signal. now destruct (use_animations l).
  - intros vertical Hrange Hdiff.
    destruct layout as [[sp vert pack homog] cont emode dur anim use].
    unfold clutter_box_layout_get_vertical, clutter_box_layout_set_container,
      clutter_box_layout_set_vertical, matching_request_mode, request_relayout,
      clutter_box_layout_begin_animation, with_priv in *.
    cbn [layout_priv layout_container easing_mode easing_duration is_animating
         use_animations spacing is_vertical is_pack_start is_homogeneous] in *.
    destruct (Z.eqb_spec (gboolean_of_bit vert) vertical) as [E | _]; [congruence|].
    cbn [negb].
    assert (Hv : vertical = 0 \/ vertical = 1) by lia.
    destruct use, vert, Hv as [-> | ->]; cbn in *; try congruence;
      split; (reflexivity || discriminate).
Qed.

(** ** Rectangles side by side *)



(** ** Reads of the [sizes] array *)

Lemma distribute_loop_length (k : nat) (spreading : list nat) :
  forall (e : Z) (s : list ClutterRequestedSize) (v : list nat),
  length (snd (fst (distribute_loop k spreading e s v))) = length s.
Proof.
  induction k as [|i IH]; intros e s v; [reflexivity|].
  cbn [distribute_loop]. destruct (e >? 0); [|reflexivity].
  rewrite IH. apply add_to_minimum_length.
Qed.

Lemma distribute_natural_allocation_length (e : Z) (n : nat)
      (sizes : list ClutterRequestedSize) :
  length (dist_sizes (distribute_natural_allocation e n sizes)) = length sizes.
Proof.
  unfold distribute_natural_allocation.
  destruct (negb (e >=? 0)); [reflexivity|].
  pose proof (distribute_loop_length n
                (g_qsort_with_data (compare_gap sizes) (seq 0 n)) e sizes []) as H.
  destruct (distribute_loop n _ e sizes []) as [[r t] w]. exact H.
Qed.

Lemma share_out_length (priv : ClutterBoxLayoutPrivate) (box : ClutterActorBox)
      (nvis nexpand size : Z) (sizes : list ClutterRequestedSize) :
  length (snd (share_out priv box nvis nexpand size sizes)) = length sizes.
Proof.
  unfold share_out. destruct (is_homogeneous priv); [reflexivity|].
  destruct (nexpand >? 0); cbn [snd]; apply distribute_natural_allocation_length.
Qed.

Section ReadsInBounds.

Variable priv : ClutterBoxLayoutPrivate.
Variable box : ClutterActorBox.
Variable is_rtl : bool.
Variable extra : Z.
Variable sizes : list ClutterRequestedSize.
Variable stray stray' : nat -> ClutterRequestedSize.

(** When the position of every visible child is inside the array, the
    loop does not depend on what lies past its end. *)
Lemma allocate_loop_in_bounds (backwards : list ClutterActor) :
  (forall l1 c l2, backwards = l1 ++ c :: l2 -> visible c = true ->
                   (length l2 < length sizes)%nat) ->
  forall st,
  allocate_loop priv box is_rtl extra sizes stray backwards st
  = allocate_loop priv box is_rtl extra sizes stray' backwards st.
Proof.
  induction backwards as [|c before IH]; intros Hin st; [reflexivity|].
  cbn [allocate_loop].
  assert (Hstep : allocate_step priv box is_rtl extra sizes stray (length before) c st
                  = allocate_step priv box is_rtl extra sizes stray' (length before)
                                  c st).
  { unfold allocate_step. destruct (visible c) eqn:Hv; [|reflexivity].
    cbn [negb].
    rewrite !sizes_read_in_range by (apply (Hin [] c before eq_refl Hv)).
    reflexivity. }
  rewrite Hstep.
  destruct (allocate_step priv box is_rtl extra sizes stray' (length before) c st)
    as [st' call].
  rewrite IH; [reflexivity|].
  intros l1 d l2 E. apply (Hin (c :: l1) d l2). now rewrite E.
Qed.

End ReadsInBounds.

(** A visible element of a list that begins with hidden elements lies
    after them. *)
Lemma visible_after_hidden (hs vs l1 l2 : list ClutterActor) (c : ClutterActor) :
  Forall (fun c => visible c = false) hs ->
  hs ++ vs = l1 ++ c :: l2 -> visible c = true ->
  (length l2 < length vs)%nat.
Proof.
  intros Hhid. revert l1. induction Hhid as [|h hs Hh Hhid IH]; intros l1 E Hv.
  - cbn [app] in E. rewrite E, length_app. cbn [length]. lia.
  - destruct l1 as [|x l1]; cbn [app] in E; injection E as E1 E2.
    + subst. congruence.
    + now apply (IH l1).
Qed.

(** X26.  No read past the array when the hidden children come last.
    The second loop reads [sizes[i]] at the position of each visible
    child in the whole child list.  When every hidden child is declared
    after the visible ones, every such read is inside the array: the
    pass does not depend on what the memory past the array holds. *)
Theorem aligned_children_read_inside_the_array (priv : ClutterBoxLayoutPrivate)
        (container : ClutterContainer) (box : ClutterActorBox)
        (vs hs : list ClutterActor) :
  children container = vs ++ hs ->
  Forall (fun c => visible c = true) vs ->
  Forall (fun c => visible c = false) hs ->
  forall stray stray' : nat -> ClutterRequestedSize,
  clutter_box_layout_allocate priv container box stray
  = clutter_box_layout_allocate priv container box stray'.
Proof.
  intros Hch Hvis Hhid stray stray'.
  assert (Hfilter : filter visible (children container) = vs)
    by (rewrite Hch; now apply filter_visible_split).
  unfold clutter_box_layout_allocate.
  destruct (count_expand_children container) as [nvis nexpand].
  destruct (nvis <=? 0); [reflexivity|].
  destruct (request_sizes priv box (children container) 0
              (available_size priv box nvis) []) as [err | [size sizes]] eqn:Ereq;
    [reflexivity|].
  assert (Hlen : length sizes = length vs).
  { destruct (forallb request_accepted
                (visible_requests priv box (children container))) eqn:Hok.
    - rewrite request_sizes_accepted in Ereq by assumption.
      injection Ereq as _ <-. cbn [app].
      now rewrite visible_requests_length, Hfilter.
    - destruct (request_sizes_rejected priv box (children container) 0%nat
                  (available_size priv box nvis) [] Hok) as [err Herr].
      congruence. }
  pose proof (share_out_length priv box nvis nexpand size sizes) as Hshare.
  destruct (share_out priv box nvis nexpand size sizes) as [[extra n_extra] sizes'].
  cbn [snd] in Hshare. f_equal.
  apply allocate_loop_in_bounds.
  intros l1 c l2 E Hv. rewrite Hshare, Hlen.
  rewrite Hch, rev_app_distr in E.
  rewrite <- (length_rev vs).
  apply (visible_after_hidden (rev hs) (rev vs) l1 l2 c); try assumption.
  now apply Forall_rev.
Qed.

(** X27.  A read past the array when a visible child comes after a
    hidden one.  In a non-homogeneous layout whose requests pass the
    checks, a visible child that does not expand and whose position in
    the child list is not below the number of visible children is given
    the integer part of the minimum size found past the end of the
    [sizes] array at that position. *)
Theorem visible_child_behind_hidden_reads_past_the_array
        (priv : ClutterBoxLayoutPrivate) (container : ClutterContainer)
        (box : ClutterActorBox) (stray : nat -> ClutterRequestedSize)
        (i : nat) (child : ClutterActor) :
  is_homogeneous priv = false ->
  forallb request_accepted (visible_requests priv box (children container)) = true ->
  nth_error (children container) i = Some child ->
  visible child = true -> expand (box_child child) = false ->
  (length (filter visible (children container)) <= i)%nat ->
  exists calls a,
    clutter_box_layout_allocate priv container box stray = inr calls
    /\ In a calls /\ alloc_index a = i
    /\ alloc_child_size a = gint_of_gfloat (minimum_size (stray i)).
Proof.
  intros Hh Hok Hchild Hv Hex Hpos.
  assert (Hne : filter visible (children container) <> []).
  { intros E. apply nth_error_In in Hchild.
    assert (Hin : In child (filter visible (children container)))
      by (apply filter_In; now split).
    rewrite E in Hin. contradiction. }
  rewrite allocate_accepted by assumption.
  pose proof (share_out_length priv box
                (Z.of_nat (length (filter visible (children container))))
                (Z.of_nat (length (filter (fun c => expand (box_child c))
                                          (filter visible (children container)))))
                (subtract_minimums
                   (available_size priv box
                      (Z.of_nat (length (filter visible (children container)))))
                   (visible_requests priv box (children container)))
                (visible_requests priv box (children container))) as Hlen.
  destruct (share_out _ _ _ _ _ _) as [[extra n_extra] sizes].
  cbn [snd] in Hlen. rewrite visible_requests_length in Hlen.
  set (calls := allocate_loop priv box (compute_is_rtl priv container) extra sizes
                  stray (rev (children container)) (initial_state priv box n_extra)).
  assert (Hin : In i (map alloc_index calls)).
  { subst calls. rewrite allocate_loop_indices, <- in_rev.
    apply visible_positions_from_In. split; [lia|].
    exists child. rewrite Nat.sub_0_r. now split. }
  apply in_map_iff in Hin. destruct Hin as (a & Hidx & Ha).
  exists calls, a. split; [reflexivity|]. split; [assumption|].
  split; [assumption|].
  pose proof (allocate_loop_requested priv box (compute_is_rtl priv container) extra
                sizes stray Hh (rev (children container)) []
                (initial_state priv box n_extra)) as Hloop.
  rewrite rev_involutive, app_nil_r, Forall_forall in Hloop.
  destruct (Hloop a Ha) as (child' & Hc' & _ & Hsize & _).
  rewrite Hidx in Hc', Hsize.
  assert (child' = child) by congruence. subst child'.
  rewrite Hsize by now left.
  now rewrite sizes_read_stray by lia.
Qed.

(** ** Counting the children *)

(** X28.  [count_expand_children] returns the number of visible
    children and the number of visible children that expand; hidden
    children count for nothing, whatever their expand flag, and the
    second number is never above the first. *)
Theorem count_expand_children_counts (container : ClutterContainer) :
  let visible_children := filter visible (children container) in
  let expanding := filter (fun c => expand (box_child c)) visible_children in
  count_expand_children container
  = (Z.of_nat (length visible_children), Z.of_nat (length expanding))
  /\ count_expand_children container
     = count_expand_children (without_hidden container)
  /\ 0 <= snd (count_expand_children container)
       <= fst (count_expand_children container)
  /\ fst (count_expand_children container)
     <= Z.of_nat (length (children container)).
Proof.
  cbv zeta. rewrite !count_expand_children_spec.
  unfold without_hidden. cbn [children fst snd]. rewrite filter_visible_idem.
  split; [reflexivity|]. split; [reflexivity|].
  pose proof (filter_length_le (fun c => expand (box_child c))
                (filter visible (children container))).
  pose proof (filter_length_le visible (children container)).
  lia.
Qed.

(** ** The further properties on sample layouts *)

Lemma allocate_calls_in_reverse_order_witness :
  exists calls,
    clutter_box_layout_allocate (horizontal_layout 5 false)
      (ltr_container hidden_then_two) (box_of_width 100) no_stray = inr calls
    /\ map alloc_index calls = rev (visible_positions hidden_then_two).
Proof.
  apply (allocate_calls_in_reverse_order (horizontal_layout 5 false)
           (ltr_container hidden_then_two) (box_of_width 100) no_stray).
  reflexivity.
Defined.










Lemma nothing_visible_witness :
  clutter_box_layout_allocate (horizontal_layout 5 false)
    (ltr_container [sample_child false 10 10 false true]) (box_of_width 100) no_stray
  = inr [].
Proof.
  exact (proj2 (proj2 (nothing_visible (horizontal_layout 5 false)
                         (ltr_container [sample_child false 10 10 false true])
                         0%Q (box_of_width 100) no_stray eq_refl))).
Defined.

Lemma compare_gap_fixes_the_order_witness :
  StronglySorted (fun c1 c2 => compare_gap two_requests c1 c2 <= 0) [1%nat; 0%nat]
  /\ [1%nat; 0%nat]
     = g_qsort_with_data (compare_gap two_requests) (seq 0 (length two_requests)).
Proof.
  assert (Hs : StronglySorted (fun c1 c2 => compare_gap two_requests c1 c2 <= 0)
                              [1%nat; 0%nat]).
  { repeat constructor. vm_compute. discriminate. }
  split; [exact Hs|].
  apply (compare_gap_fixes_the_order two_requests [1%nat; 0%nat]).
  - exact two_requests_valid.
  - cbn. lia.
  - apply perm_swap.
  - exact Hs.
Defined.

Lemma measure_transposed_witness :
  clutter_box_layout_get_preferred_height
    (transpose_layout (horizontal_layout 5 false))
    (transpose_container (ltr_container three_children)) 50%Q
  = clutter_box_layout_get_preferred_width (horizontal_layout 5 false)
      (ltr_container three_children) 50%Q.
Proof.
  refine (proj1 (measure_transposed (horizontal_layout 5 false)
                   (ltr_container three_children) 50%Q _)).
  discriminate.
Defined.


Lemma even_gboolean_turns_flags_off_witness :
  clutter_box_layout_set_use_animations animated_layout 2
  = (mkLayout (layout_priv animated_layout) (layout_container animated_layout)
              (easing_mode animated_layout) (easing_duration animated_layout)
              (is_animating animated_layout) false,
     [notify PROP_USE_ANIMATIONS]).
Proof.
  refine (proj1 (proj2 (even_gboolean_turns_flags_off 2 animated_layout
                          clutter_box_child_init eq_refl _))).
  discriminate.
Defined.

Lemma allocate_pass_updates_each_cache_once_witness :
  exists calls,
    clutter_box_layout_allocate (layout_priv plain_layout)
      (ltr_container hidden_then_two) (box_of_width 100) no_stray = inr calls
    /\ map alloc_index calls = rev (visible_positions hidden_then_two)
    /\ length (fst (allocate_box_children keep_box linear_interpolation plain_layout 0%Q
                      hidden_then_two
                      (repeat (mkCache (box_of_width 0) false) 3) calls))
       = 3%nat.
Proof.
  assert (Hrun : exists calls,
            clutter_box_layout_allocate (layout_priv plain_layout)
              (ltr_container hidden_then_two) (box_of_width 100) no_stray = inr calls).
  { eexists. vm_compute. reflexivity. }
  destruct Hrun as (calls & Hrun). exists calls.
  destruct (allocate_pass_updates_each_cache_once keep_box linear_interpolation
              plain_layout 0%Q (ltr_container hidden_then_two) (box_of_width 100)
              no_stray (repeat (mkCache (box_of_width 0) false) 3) calls
              eq_refl Hrun) as (Hidx & Hlen & _).
  split; [exact Hrun|]. split; [exact Hidx | exact Hlen].
Defined.

Lemma geometry_change_starts_transition_witness :
  setter_argument (call_set_spacing 7)
  <> read_property (setter_property (call_set_spacing 7)) animated_layout
  /\ allocate_box_child keep_box linear_interpolation
       (fst (run_setter (call_set_spacing 7) animated_layout)) (1 # 2)
       (sample_child true 10 10 false true) (mkCache (box_of_width 10) true)
       (box_of_width 30)
     = (mkCache (box_of_width 10) true,
        linear_interpolation (box_of_width 10)
          (aligned_box keep_box (sample_child true 10 10 false true) (box_of_width 30))
          (1 # 2)).
Proof.
  assert (Hdiff : setter_argument (call_set_spacing 7)
                  <> read_property (setter_property (call_set_spacing 7))
                                   animated_layout)
    by (vm_compute; discriminate).
  split; [exact Hdiff|].
  exact (proj1 (geometry_change_starts_transition keep_box linear_interpolation
                  (call_set_spacing 7) animated_layout (1 # 2)
                  (sample_child true 10 10 false true) (mkCache (box_of_width 10) true)
                  (box_of_width 30) eq_refl eq_refl Hdiff eq_refl)).
Defined.


Lemma aligned_children_read_inside_the_array_witness :
  clutter_box_layout_allocate (horizontal_layout 5 false)
    (ltr_container three_children) (box_of_width 100) no_stray
  = clutter_box_layout_allocate (horizontal_layout 5 false)
      (ltr_container three_children) (box_of_width 100)
      (fun _ => mkRequest (7 # 1) (7 # 1)).
Proof.
  apply (aligned_children_read_inside_the_array (horizontal_layout 5 false)
           (ltr_container three_children) (box_of_width 100) three_children []).
  - reflexivity.
  - repeat constructor.
  - constructor.
Defined.

Lemma visible_child_behind_hidden_reads_past_the_array_witness :
  exists calls a,
    clutter_box_layout_allocate (horizontal_layout 5 false)
      (ltr_container hidden_then_two) (box_of_width 100)
      (fun _ => mkRequest (7 # 1) (7 # 1)) = inr calls
    /\ In a calls /\ alloc_index a = 2%nat
    /\ alloc_child_size a = 7.
Proof.
  apply (visible_child_behind_hidden_reads_past_the_array (horizontal_layout 5 false)
           (ltr_container hidden_then_two) (box_of_width 100)
           (fun _ => mkRequest (7 # 1) (7 # 1)) 2%nat
           (sample_child true 30 30 false true));
    reflexivity.
Defined.
